(** * 12-lead ECG feature selection: a shallow embedding of
      [feature_selection.py] and the properties of its pipeline.

    Numbers.  Python integers are [Z].  Floating-point values are modelled
    by exact rationals ([Q]) extended with the special values the code can
    meet (NaN, infinity); rounding error of the binary representation is
    not modelled.

    Errors.  A Python exception is an [Err] result; [>>=] sequences
    statements and stops at the first exception.

    Libraries.  numpy, pandas and scikit-learn functions the code calls are
    modelled after their documented behaviour in the modules [Np], [Pd] and
    [Sk]; the estimators themselves (random forest, grid search) and the
    seeded shuffle are section variables. *)

From Stdlib Require Import ZArith QArith Qround Qabs List String Ascii Bool.
From Stdlib Require Import Lia Lqa Permutation Sorted.
Import ListNotations.

Local Open Scope string_scope.
Local Open Scope list_scope.
Local Open Scope Z_scope.

(** ** Exceptions and results *)

Inductive exn : Type :=
| KeyError (labels : list string)
| ValueError (msg : string)
| TypeError (msg : string)
| AttributeError (msg : string)
| MissingColumns (missing : list string).
(* [MissingColumns m] is the ValueError raised by fill_age_height_weight,
   "Input DataFrame is missing required columns: {m}". *)

Inductive result (A : Type) : Type :=
| Ok (a : A)
| Err (e : exn).
Arguments Ok {A} a.
Arguments Err {A} e.

Definition bind {A B} (r : result A) (k : A -> result B) : result B :=
  match r with
  | Ok a => k a
  | Err e => Err e
  end.

Notation "x <- c ;; k" := (bind c (fun x => k))
  (at level 61, c at next level, right associativity).

Definition is_ok {A} (r : result A) : bool :=
  match r with Ok _ => true | Err _ => false end.

Fixpoint mapM {A B} (f : A -> result B) (l : list A) : result (list B) :=
  match l with
  | [] => Ok []
  | a :: l' => b <- f a ;; bs <- mapM f l' ;; Ok (b :: bs)
  end.

(** ** Python dictionaries as insertion-ordered association lists *)

Module Dict.
Section Dict.
Context {K V : Type}.
Variable eqb : K -> K -> bool.

Fixpoint get (k : K) (d : list (K * V)) : option V :=
  match d with
  | [] => None
  | (k', v) :: d' => if eqb k k' then Some v else get k d'
  end.

Fixpoint remove (k : K) (d : list (K * V)) : list (K * V) :=
  match d with
  | [] => []
  | (k', v) :: d' => if eqb k k' then d' else (k', v) :: remove k d'
  end.

(* d[k] = v: an existing key keeps its position, a new key goes last. *)
Fixpoint set (k : K) (v : V) (d : list (K * V)) : list (K * V) :=
  match d with
  | [] => [(k, v)]
  | (k', v') :: d' =>
      if eqb k k' then (k', v) :: d' else (k', v') :: set k v d'
  end.

Definition mem (k : K) (d : list (K * V)) : bool :=
  match get k d with Some _ => true | None => false end.
End Dict.
End Dict.

(** ** Floating-point values *)

(* A float64 as the code meets it. *)
Inductive float : Type :=
| Fin (q : Q)
| PosInf
| NegInf
| FNaN.

Definition isfinite (x : float) : bool :=
  match x with Fin _ => true | _ => false end.

Definition fpositive (x : float) : bool :=
  match x with
  | Fin q => if Qlt_le_dec 0 q then true else false
  | PosInf => true
  | _ => false
  end.

(** ** numpy *)

Module Np.

Definition count (y : list Z) (c : Z) : Z :=
  Z.of_nat (List.length (filter (Z.eqb c) y)).

Definition amax (y : list Z) : Z := fold_right Z.max (-1) y.

(* np.bincount(y): occurrences of every code 0 .. max(y); negative
   entries are refused. *)
Definition bincount (y : list Z) : result (list Z) :=
  if existsb (fun v => v <? 0) y
  then Err (ValueError "'list' argument must have no negative elements")
  else Ok (map (fun i => count y (Z.of_nat i))
               (seq 0 (Z.to_nat (amax y + 1)))).

(* int64 / int64: true division; a zero divisor gives inf or nan (and a
   RuntimeWarning), not an exception. *)
Definition true_divide (a b : Z) : float :=
  if b =? 0 then
    if a =? 0 then FNaN else if 0 <? a then PosInf else NegInf
  else Fin (inject_Z a / inject_Z b).

End Np.

Definition sum (l : list Z) : Z := fold_right Z.add 0 l.

(** ** train: class weights *)

(* class_counts = np.bincount(y_train)
   class_weight = {i: sum(class_counts) / class_counts[i]
                   for i in range(len(class_counts))} *)
Definition class_weight_of_counts (class_counts : list Z) : list (Z * float) :=
  map (fun i => (Z.of_nat i,
                 Np.true_divide (sum class_counts) (nth i class_counts 0)))
      (seq 0 (List.length class_counts)).

Definition class_weight (y_train : list Z) : result (list (Z * float)) :=
  class_counts <- Np.bincount y_train ;;
  Ok (class_weight_of_counts class_counts).

(** ** train *)

(* A candidate value of a hyperparameter. *)
Inductive pvalue : Type :=
| PInt (z : Z)
| PNone
| PStr (s : string)
| PClassWeight (w : list (Z * float)).

(* Keyword arguments of an estimator, and a search grid: hyperparameter
   name -> list of candidates. *)
Definition params : Type := list (string * pvalue).
Definition grid : Type := list (string * list pvalue).

(* if param_grid.get("class_weight"):
       param_grid["class_weight"].append(class_weight)
   The list held by the caller's dictionary is extended in place. *)
Definition inject_class_weight (g : grid) (cw : list (Z * float)) : grid :=
  match Dict.get String.eqb "class_weight" g with
  | Some (c :: cs) =>
      Dict.set String.eqb "class_weight" ((c :: cs) ++ [PClassWeight cw]) g
  | _ => g
  end.

(* The classifier is built from the keywords of best_params_ together
   with random_state=42: a keyword given twice is a TypeError. *)
Definition with_random_state (best : params) : result params :=
  if Dict.mem String.eqb "random_state" best
  then Err (TypeError "got multiple values for keyword argument 'random_state'")
  else Ok (best ++ [("random_state", PInt 42)]).

Definition default_params : params :=
  [("n_estimators", PInt 100); ("random_state", PInt 42)].

Section Train.
Variables Features Model : Type.

(* a RandomForestClassifier built with keywords kw, then .fit(X, y) *)
Variable RandomForestClassifier_fit :
  params -> Features -> list Z -> result Model.
(* GridSearchCV(estimator=rf, param_grid=g, cv=5, scoring="accuracy")
     .fit(X, y).best_params_ *)
Variable GridSearchCV_fit : grid -> Features -> list Z -> result params.

(* param_grid is passed by reference: the first component of the outcome
   is the caller's param_grid object as it stands when train returns or
   raises, the second is the value returned or the exception raised. *)
Definition train (X_train : Features) (y_train : list Z)
    (param_grid : option grid) : option grid * result Model :=
  match class_weight y_train with
  | Err e => (param_grid, Err e)
  | Ok class_weight =>
      match param_grid with
      | Some g =>
          let g' := inject_class_weight g class_weight in
          (Some g',
           best_params_ <- GridSearchCV_fit g' X_train y_train ;;
           kw <- with_random_state best_params_ ;;
           RandomForestClassifier_fit kw X_train y_train)
      | None =>
          (None, RandomForestClassifier_fit default_params X_train y_train)
      end
  end.
End Train.
Arguments train {Features Model} _ _ _ _ _.

(** ** Tables *)

(* A cell of a table: a missing value, a finite number or a text. *)
Inductive value : Type :=
| NaN
| Num (q : Q)
| Str (s : string).

(* A record maps field names to values; a DataFrame is an ordered
   collection of records, each under its index label, with the column
   labels of the schema.  A Series is one column with the index. *)
Definition Row : Type := list (string * value).

Record DataFrame : Type := mkDF {
  columns : list string;
  rows : list (Z * Row)
}.

Definition Series : Type := list (Z * value).

Definition mem_string (s : string) (l : list string) : bool :=
  existsb (String.eqb s) l.

Definition mem_Z (z : Z) (l : list Z) : bool := existsb (Z.eqb z) l.

(* v == w, element-wise: NaN equals nothing. *)
Definition value_eq (v w : value) : bool :=
  match v, w with
  | Num a, Num b => Qeq_bool a b
  | Str a, Str b => String.eqb a b
  | _, _ => false
  end.

(* Identity of values for unique(): as value_eq, with all NaN alike. *)
Definition same_value (v w : value) : bool :=
  match v, w with
  | NaN, NaN => true
  | _, _ => value_eq v w
  end.

Definition isnan (x : option Q) : bool :=
  match x with None => true | Some _ => false end.

(* Comparisons of float64 values (None is NaN): false on NaN. *)
Definition fle (x y : option Q) : bool :=
  match x, y with
  | Some a, Some b => Qle_bool a b
  | _, _ => false
  end.

Definition fge (x y : option Q) : bool := fle y x.

Definition fadd (x : option Q) (d : Q) : option Q :=
  match x with Some a => Some (a + d)%Q | None => None end.

Definition fsub (x : option Q) (d : Q) : option Q :=
  match x with Some a => Some (a - d)%Q | None => None end.

(* int(x): truncation toward zero; NaN cannot be converted. *)
Definition py_int (x : option Q) : result Z :=
  match x with
  | Some q => Ok (Z.quot (Qnum q) (Zpos (Qden q)))
  | None => Err (ValueError "cannot convert float NaN to integer")
  end.

(* round(x): to the nearest integer, halves to the even one. *)
Definition py_round (q : Q) : Z :=
  let f := Qfloor q in
  let r := (q - inject_Z f)%Q in
  match Qcompare r (1 # 2) with
  | Lt => f
  | Gt => f + 1
  | Eq => if Z.even f then f else f + 1
  end.

(* round(x, 2) *)
Definition py_round2 (q : Q) : Q :=
  (inject_Z (py_round (q * 100)) / 100)%Q.

Module Pd.

(* The numeric reading of a cell; an operation on numbers applied to a
   text is a TypeError. *)
Definition to_float (v : value) : result (option Q) :=
  match v with
  | NaN => Ok None
  | Num q => Ok (Some q)
  | Str _ => Err (TypeError "unsupported operand type: 'str'")
  end.

Definition cell (c : string) (r : Row) : value :=
  match Dict.get String.eqb c r with
  | Some v => v
  | None => NaN
  end.

(* df[c] *)
Definition col (df : DataFrame) (c : string) : result Series :=
  if mem_string c (columns df)
  then Ok (map (fun ir => (fst ir, cell c (snd ir))) (rows df))
  else Err (KeyError [c]).

(* df[c] as float64 values *)
Definition col_floats (df : DataFrame) (c : string)
  : result (list (option Q)) :=
  s <- col df c ;; mapM (fun iv => to_float (snd iv)) s.

(* row[c] *)
Definition row_get (r : Row) (c : string) : result value :=
  match Dict.get String.eqb c r with
  | Some v => Ok v
  | None => Err (KeyError [c])
  end.

Definition row_float (r : Row) (c : string) : result (option Q) :=
  v <- row_get r c ;; to_float v.

(* df.drop(columns=labels): labels that are not columns are a KeyError. *)
Definition drop_columns (df : DataFrame) (labels : list string)
  : result DataFrame :=
  match filter (fun l => negb (mem_string l (columns df))) labels with
  | [] =>
      Ok {| columns :=
              filter (fun c => negb (mem_string c labels)) (columns df);
            rows :=
              map (fun ir =>
                     (fst ir,
                      filter (fun kv => negb (mem_string (fst kv) labels))
                             (snd ir)))
                  (rows df) |}
  | missing => Err (KeyError missing)
  end.

(* df[c] = values *)
Definition set_col (df : DataFrame) (c : string) (vals : list value)
  : DataFrame :=
  {| columns := if mem_string c (columns df) then columns df
                else columns df ++ [c];
     rows := map (fun p => (fst (fst p),
                             Dict.set String.eqb c (snd p) (snd (fst p))))
                 (combine (rows df) vals) |}.

(* s.fillna(v) *)
Definition fillna (v : value) (vals : list value) : list value :=
  map (fun x => match x with NaN => v | _ => x end) vals.

(* s.unique(): the distinct values in order of first appearance. *)
Fixpoint unique_from (seen : list value) (vals : list value) : list value :=
  match vals with
  | [] => []
  | v :: vs =>
      if existsb (same_value v) seen then unique_from seen vs
      else v :: unique_from (seen ++ [v]) vs
  end.

Definition unique (vals : list value) : list value := unique_from [] vals.

(* s.map(d) for a dictionary d given as an association list on values:
   a value that is no key becomes NaN. *)
Definition map_dict (d : list (value * value)) (vals : list value)
  : list value :=
  map (fun v => match Dict.get same_value v d with
                | Some w => w
                | None => NaN
                end) vals.

Definition dropna (l : list (option Q)) : list Q :=
  flat_map (fun x => match x with Some q => [q] | None => [] end) l.

Fixpoint insert_sorted (x : Q) (l : list Q) : list Q :=
  match l with
  | [] => [x]
  | y :: l' => if Qle_bool x y then x :: y :: l' else y :: insert_sorted x l'
  end.

Definition sort_values (l : list Q) : list Q :=
  fold_right insert_sorted [] l.

Definition qsum (l : list Q) : Q := fold_right Qplus 0%Q l.

(* s.mean(), NaN skipped; NaN when nothing is left. *)
Definition mean (l : list (option Q)) : option Q :=
  match dropna l with
  | [] => None
  | x :: xs =>
      Some (qsum (x :: xs) / inject_Z (Z.of_nat (List.length (x :: xs))))%Q
  end.

(* s.median(), NaN skipped: the middle value of the sorted values, or the
   mean of the two middle values. *)
Definition median (l : list (option Q)) : option Q :=
  let s := sort_values (dropna l) in
  let n := List.length s in
  match s with
  | [] => None
  | _ =>
      if Nat.even n
      then Some ((nth (n / 2 - 1) s 0 + nth (n / 2) s 0) / 2)%Q
      else Some (nth (n / 2) s 0%Q)
  end.

(* s[mask] on the values *)
Definition boolean_index {A} (mask : list bool) (l : list A) : list A :=
  map snd (filter fst (combine mask l)).

Definition and_mask (a b : list bool) : list bool :=
  map (fun p => andb (fst p) (snd p)) (combine a b).

(* df.drop(labels) on rows: every row under one of the labels goes. *)
Definition drop_rows {A} (labels : list Z) (l : list (Z * A))
  : list (Z * A) :=
  filter (fun ir => negb (mem_Z (fst ir) labels)) l.

(* df.loc[labels]: for each label in turn, every row under it. *)
Definition loc {A} (labels : list Z) (l : list (Z * A)) : list (Z * A) :=
  flat_map (fun lab => filter (fun ir => fst ir =? lab) l) labels.

End Pd.

(** ** Constants of the module *)

Definition DIAGNOSI_MAP : list (string * Z) :=
  [("SR", 0); ("AFIB", 1); ("STACH", 0); ("SARRH", 2); ("SBRAD", 0);
   ("PACE", 3); ("SVARR", 4); ("BIGU", 5); ("AFLT", 6); ("SVTAC", 7);
   ("PSVT", 8); ("TRIGU", 9)].

Definition LABELS : list (string * string) :=
  [("0", "Sinus Rhythm");
   ("1", "Atrial Fibrillation");
   ("2", "Sinus Arrhythmia");
   ("3", "Normal Functioning Artificial Pacemaker");
   ("4", "Supraventricular Arrhythmia");
   ("5", "Bigeminal Pattern (Unknown Origin, SV or Ventricular)");
   ("6", "Atrial Flutter");
   ("7", "Supraventricular Tachycardia");
   ("8", "Paroxysmal Supraventricular Tachycardia");
   ("9", "Trigeminal Pattern (Unknown Origin, SV or Ventricular)")].

(* l[i] = v *)
Fixpoint list_set {A} (i : nat) (v : A) (l : list A) : list A :=
  match l, i with
  | [], _ => []
  | _ :: l', O => v :: l'
  | a :: l', S i' => a :: list_set i' v l'
  end.

(* CM_LABELS = [""] * (max(DIAGNOSI_MAP.values()) + 1)
   for k, i in DIAGNOSI_MAP.items(): CM_LABELS[i] = k
   CM_LABELS[0] = "NSR" *)
Definition CM_LABELS : list string :=
  let blank :=
    repeat "" (Z.to_nat (fold_right Z.max 0 (map snd DIAGNOSI_MAP) + 1)) in
  let filled :=
    fold_left (fun acc ki => list_set (Z.to_nat (snd ki)) (fst ki) acc)
              DIAGNOSI_MAP blank in
  list_set 0 "NSR" filled.

Definition DROP_COLUMNS : list string :=
  ["ritmi"; "ecg_id"; "patient_id"; "nurse"; "site"; "device";
   "recording_date"; "report"; "scp_codes"; "infarction_stadium1";
   "infarction_stadium2"; "initial_autogenerated_report"; "baseline_drift";
   "static_noise"; "burst_noise"; "electrodes_problems"; "extra_beats";
   "filename_lr"; "filename_hr"; "validated_by"; "second_opinion";
   "validated_by_human"; "strat_fold"].

Definition required_columns : list string := ["age"; "height"; "weight"].

Definition h_age_bins : list float :=
  [Fin (-1); Fin 4; Fin 9; Fin 19; PosInf].
Definition h_age_labels : list string := ["0-4"; "5-9"; "10-19"; "20+"].
Definition w_age_bins : list float :=
  [Fin (-1); Fin 4; Fin 9; Fin 19; Fin 29; Fin 39; Fin 49; Fin 59; Fin 69;
   Fin 79; Fin 89; PosInf].
Definition w_age_labels : list string :=
  ["0-4"; "5-9"; "10-19"; "20-29"; "30-39"; "40-49"; "50-59"; "60-69";
   "70-79"; "80-89"; "90+"].

(** ** fill_age *)

(* The nested function of fill_age_height_weight; df is the frame of the
   enclosing call, as it was passed in (it is rebound only after apply
   has run over every row), and row is a copy of one of its rows. *)
Definition fill_age (df : DataFrame) (row : Row) : result Row :=
  age <- Pd.row_float row "age" ;;
  if isnan age then
    heights <- Pd.col_floats df "height" ;;
    h <- Pd.row_float row "height" ;;
    weights <- Pd.col_floats df "weight" ;;
    w <- Pd.row_float row "weight" ;;
    ages <- Pd.col_floats df "age" ;;
    let mask :=
      Pd.and_mask
        (Pd.and_mask
           (Pd.and_mask
              (Pd.and_mask
                 (map (fun x => fge x (fsub h (5 # 2))) heights)
                 (map (fun x => fle x (fadd h (5 # 2))) heights))
              (map (fun x => fge x (fsub w 2)) weights))
           (map (fun x => fle x (fadd w 2)) weights))
        (map (fun a => negb (isnan a)) ages) in
    let age_subset := Pd.boolean_index mask ages in
    if (0 <? List.length age_subset)%nat then
      v <- py_int (fadd (Pd.median age_subset) (1 # 2)) ;;
      Ok (Dict.set String.eqb "age" (Num (inject_Z v)) row)
    else
      v <- py_int (fadd (Pd.mean ages) (1 # 2)) ;;
      Ok (Dict.set String.eqb "age" (Num (inject_Z v)) row)
  else Ok row.

(* "ja" in str(k) *)
Fixpoint contains (sub s : string) : bool :=
  if String.prefix sub s then true
  else match s with
       | EmptyString => false
       | String _ s' => contains sub s'
       end.

(* The text of a number holds digits, a sign, a point or an exponent, and
   that of a missing value is "nan": neither holds "ja". *)
Definition has_ja (k : value) : bool :=
  match k with
  | Str s => contains "ja" s
  | _ => false
  end.

Fixpoint enumerate_from {A} (i : Z) (l : list A) : list (Z * A) :=
  match l with
  | [] => []
  | a :: l' => (i, a) :: enumerate_from (i + 1) l'
  end.

Section Preprocess.

(* df.groupby([pd.cut(df["age"], bins, labels=labels), "sex"])[c]
     .transform(lambda x: x.fillna(round(x.mean(), 1)))
   as the values of the resulting column. *)
Variable groupby_fill_mean :
  DataFrame -> list float -> list string -> string -> result (list value).

Definition fill_age_height_weight (df : DataFrame) : result DataFrame :=
  match filter (fun c => negb (mem_string c (columns df)))
               required_columns with
  | [] =>
      rows' <- mapM (fun ir => r <- fill_age df (snd ir) ;; Ok (fst ir, r))
                    (rows df) ;;
      let df := {| columns := columns df; rows := rows' |} in
      hs <- groupby_fill_mean df h_age_bins h_age_labels "height" ;;
      let df := Pd.set_col df "height" hs in
      ws <- groupby_fill_mean df w_age_bins w_age_labels "weight" ;;
      Ok (Pd.set_col df "weight" ws)
  | missing_columns => Err (MissingColumns missing_columns)
  end.

(* The drop_columns argument of format_df is never read and is left
   out. *)
Definition format_df (df : DataFrame) : result DataFrame :=
  df <- Pd.drop_columns df DROP_COLUMNS ;;
  df <- fill_age_height_weight df ;;
  ha <- Pd.col df "heart_axis" ;;
  let df := Pd.set_col df "heart_axis"
              (Pd.fillna (Str "Missing") (map snd ha)) in
  pm <- Pd.col df "pacemaker" ;;
  let df := Pd.set_col df "pacemaker"
              (Pd.fillna (Str "Missing") (map snd pm)) in
  ha <- Pd.col df "heart_axis" ;;
  ha' <- Pd.col df "heart_axis" ;;
  let df := Pd.set_col df "heart_axis"
              (Pd.map_dict
                 (map (fun ik => (snd ik, Num (inject_Z (fst ik))))
                      (enumerate_from 0 (Pd.unique (map snd ha'))))
                 (map snd ha)) in
  pm <- Pd.col df "pacemaker" ;;
  pm' <- Pd.col df "pacemaker" ;;
  let df := Pd.set_col df "pacemaker"
              (Pd.map_dict
                 (map (fun k => (k, Num (if has_ja k then 1 else 0)))
                      (Pd.unique (map snd pm')))
                 (map snd pm)) in
  dg <- Pd.col df "diagnosi" ;;
  Ok (Pd.set_col df "diagnosi"
        (map (fun v => match v with
                       | Str s =>
                           match Dict.get String.eqb s DIAGNOSI_MAP with
                           | Some i => Num (inject_Z i)
                           | None => NaN
                           end
                       | _ => NaN
                       end)
             (map snd dg))).

End Preprocess.

(** ** scikit-learn: splitting and metrics *)

Module Sk.

(* a[indices] *)
Definition take {A} (indices : list nat) (a : list A) : list A :=
  flat_map (fun i => match nth_error a i with
                     | Some x => [x]
                     | None => []
                     end) indices.

Section ModelSelection.
(* RandomState(42).permutation(n): some arrangement of 0 .. n-1. *)
Variable permutation : nat -> list nat.

(* train_test_split(a, test_size=0.2, random_state=42):
     n_test = ceil(0.2 * n), n_train = n - n_test, an empty train set
     is refused; the first n_test entries of the permutation index
     the test part, the next n_train the train part. *)
Definition train_test_split {A} (a : list A) : result (list A * list A) :=
  let n := List.length a in
  let n_test :=
    Z.to_nat (Qceiling ((2 # 10) * inject_Z (Z.of_nat n))) in
  let n_train := (n - n_test)%nat in
  if (n_train =? 0)%nat
  then Err (ValueError "the resulting train set will be empty")
  else
    let p := permutation n in
    Ok (take (firstn n_train (skipn n_test p)) a,
        take (firstn n_test p) a).
End ModelSelection.

(* unique_labels(y_true, y_pred): the labels that occur, ascending. *)
Fixpoint insert_label (c : Z) (l : list Z) : list Z :=
  match l with
  | [] => [c]
  | d :: l' =>
      if c <? d then c :: d :: l'
      else if c =? d then d :: l'
      else d :: insert_label c l'
  end.

Definition unique_labels (y_true y_pred : list Z) : list Z :=
  fold_right insert_label [] (y_true ++ y_pred).

(* confusion_matrix(y_true, y_pred) with no labels argument: entry
   (i, j) counts the samples of true label labels[i] predicted
   labels[j], over the labels that occur in y_true or y_pred. *)
Definition confusion_matrix (y_true y_pred : list Z)
  : result (list (list Z)) :=
  if (List.length y_true =? List.length y_pred)%nat then
    let labels := unique_labels y_true y_pred in
    Ok (map (fun t =>
               map (fun p =>
                      Z.of_nat
                        (List.length
                           (filter (fun tp => andb (fst tp =? t)
                                                    (snd tp =? p))
                                   (combine y_true y_pred))))
                   labels)
            labels)
  else Err (ValueError "Found input variables with inconsistent numbers of samples").

End Sk.

(** ** train_test_split_by_category *)

(* y[y == label].index.tolist() *)
Definition label_indices (y : Series) (label : value) : list Z :=
  map fst (filter (fun iv => value_eq (snd iv) label) y).

Section Split.
Variable permutation : nat -> list nat.

(* for label in y.unique():
       label_indices = y[y == label].index.tolist()
       label_test_indices = train_test_split(label_indices, ...)[1]
       test_indices.extend(label_test_indices) *)
Fixpoint collect_test_indices (y : Series) (labels : list value)
    (test_indices : list Z) : result (list Z) :=
  match labels with
  | [] => Ok test_indices
  | label :: labels' =>
      parts <- Sk.train_test_split permutation (label_indices y label) ;;
      collect_test_indices y labels' (test_indices ++ snd parts)
  end.

Definition train_test_split_by_category (df : DataFrame)
    (category : string)
  : result ((DataFrame * Series) * (DataFrame * Series)) :=
  X <- Pd.drop_columns df [category] ;;
  y <- Pd.col df category ;;
  test_indices <-
    collect_test_indices y (Pd.unique (map snd y)) [] ;;
  let X_train :=
    {| columns := columns X; rows := Pd.drop_rows test_indices (rows X) |} in
  let X_test :=
    {| columns := columns X; rows := Pd.loc test_indices (rows X) |} in
  let y_train := Pd.drop_rows test_indices y in
  let y_test := Pd.loc test_indices y in
  Ok ((X_train, y_train), (X_test, y_test)).
End Split.

(** ** Evaluation *)

(* An entry of a classification report: the accuracy is a number, a class
   or average row maps metric names to numbers. *)
Inductive report_value : Type :=
| Scalar (q : Q)
| Metrics (m : list (string * Q)).

Definition Report : Type := list (string * report_value).

(* for k in list(report.keys()):
       if k in LABELS: report[LABELS[k]] = report.pop(k) *)
Definition relabel (report : Report) : Report :=
  fold_left
    (fun rep k =>
       match Dict.get String.eqb k LABELS, Dict.get String.eqb k rep with
       | Some name, Some v =>
           Dict.set String.eqb name v (Dict.remove String.eqb k rep)
       | _, _ => rep
       end)
    (map fst report) report.

Section Evaluate.
Variables Features Model : Type.
(* rf.predict(X) *)
Variable rf_predict : Model -> Features -> result (list Z).
(* classification_report(y, y_pred, output_dict=True) *)
Variable classification_report : list Z -> list Z -> result Report.

Definition predict (rf : Model) (X : Features) : result (list Z) :=
  rf_predict rf X.

Definition create_reports (y y_pred : list Z)
  : result (Report * list (list Z)) :=
  report <- classification_report y y_pred ;;
  let report := relabel report in
  cm <- Sk.confusion_matrix y y_pred ;;
  Ok (report, cm).

Definition test (rf : Model) (X_test : Features) (y_test : list Z)
  : result (Report * list (list Z)) :=
  y_pred <- predict rf X_test ;;
  create_reports y_test y_pred.
End Evaluate.

(* The heat map of create_confusion_matrix: z is drawn against the axis
   labels x (columns) and y (rows). *)
Record Heatmap : Type := mkHeatmap {
  hm_z : list (list Z);
  hm_x : list string;
  hm_y : list string
}.

Definition create_confusion_matrix (cm : list (list Z)) : Heatmap :=
  let cm_labels_reversed := rev CM_LABELS in
  let cm_reversed := rev cm in
  {| hm_z := cm_reversed; hm_x := CM_LABELS; hm_y := cm_labels_reversed |}.

(** ** create_report_table *)

(* A cell of the table: a text, a number, or a number followed by the
   percent sign. *)
Inductive tcell : Type :=
| TText (s : string)
| TNum (q : Q)
| TPercent (q : Q).

(* vv if vv > 1 else round(vv * 100, 2) *)
Definition percent_or_count (vv : Q) : Q :=
  if Qlt_le_dec 1 vv then vv else py_round2 (vv * 100).

(* v.values() of a report entry *)
Definition metric_values (v : report_value) : result (list Q) :=
  match v with
  | Metrics m => Ok (map snd m)
  | Scalar _ => Err (AttributeError "'float' object has no attribute 'values'")
  end.

(* report.pop(k) *)
Definition pop (k : string) (report : Report)
  : result (report_value * Report) :=
  match Dict.get String.eqb k report with
  | Some v => Ok (v, Dict.remove String.eqb k report)
  | None => Err (KeyError [k])
  end.

(* zip( *rows ): column i holds the i-th cell of every row, up to the
   length of the shortest row. *)
Definition zip_star {A} (d : A) (rows : list (list A)) : list (list A) :=
  match rows with
  | [] => []
  | r :: rs =>
      let w := fold_right Nat.min (List.length r) (map (@List.length A) rs) in
      map (fun i => map (fun row => nth i row d) rows) (seq 0 w)
  end.

Record Table : Type := mkTable {
  header : list string;
  cells : list (list tcell)
}.

Definition table_columns : list string :=
  [""; "precision (%)"; "recall (%)"; "f1-score (%)"; "support"].

(* The rows built by create_report_table, before they are transposed into
   the columns of the table. *)
Definition report_rows (report : Report) : result (Report * list (list tcell)) :=
  p1 <- pop "accuracy" report ;;
  p2 <- pop "macro avg" (snd p1) ;;
  p3 <- pop "weighted avg" (snd p2) ;;
  let accuracy := fst p1 in
  let macro_avg := fst p2 in
  let weighted_avg := fst p3 in
  let report := snd p3 in
  rows <- mapM (fun kv =>
                  vs <- metric_values (snd kv) ;;
                  Ok (TText (fst kv) :: map (fun vv => TNum (percent_or_count vv)) vs))
               report ;;
  mv <- metric_values macro_avg ;;
  wv <- metric_values weighted_avg ;;
  match accuracy with
  | Scalar acc =>
      Ok (report,
          rows
          ++ [TText "macro avg" :: map (fun v => TNum (percent_or_count v)) mv]
          ++ [TText "weighted avg" :: map (fun v => TNum (percent_or_count v)) wv]
          ++ [[TText ""; TText ""; TText ""; TText "accuracy";
               TPercent (py_round2 (acc * 100))]])
  | Metrics _ => Err (TypeError "unsupported operand type(s) for *: 'dict' and 'int'")
  end.

(* The report is the caller's dictionary: the first component is that
   dictionary on return, without the three entries popped from it. *)
Definition create_report_table (report : Report) : result (Report * Table) :=
  rr <- report_rows report ;;
  Ok (fst rr,
      {| header := table_columns; cells := zip_star (TText "") (snd rr) |}).

(** ** select_features *)

(* list.sort(key=key, reverse=reverse): a stable sort; with reverse the
   list is reversed, sorted and reversed again, so that equal keys keep
   their order. *)
Section ListSort.
Context {A : Type}.
Variable key : A -> Q.

Fixpoint insert_by (x : A) (l : list A) : list A :=
  match l with
  | [] => [x]
  | y :: l' =>
      if Qle_bool (key x) (key y) then x :: y :: l'
      else y :: insert_by x l'
  end.

Definition stable_sort (l : list A) : list A := fold_right insert_by [] l.

Definition list_sort (reverse : bool) (l : list A) : list A :=
  if reverse then rev (stable_sort (rev l)) else stable_sort l.

Definition ascending : list A -> Prop :=
  StronglySorted (fun a b => (key a <= key b)%Q).
Definition descending : list A -> Prop :=
  StronglySorted (fun a b => (key b <= key a)%Q).
End ListSort.

Section Rank.
Variable Model : Type.
Variable feature_importances_ : Model -> list Q.

Definition select_features (rf : Model) (X : DataFrame)
  : list (string * Q) :=
  let importances := feature_importances_ rf in
  let ordered := combine (columns X) importances in
  list_sort snd true ordered.
End Rank.

(** ** Age imputation as the specification words it *)

(* The number held by a field of a record, if it is known. *)
Definition known (c : string) (r : Row) : option Q :=
  match Pd.cell c r with
  | Num q => Some q
  | _ => None
  end.

(* x lies within d units of y. *)
Definition within (d : Q) (x y : option Q) : bool :=
  match x, y with
  | Some a, Some b => Qle_bool (Qabs (a - b)) d
  | _, _ => false
  end.

(* The ages of the donors of a record: the records of the table with a
   known age, a height within 2.5 units of the record's height and a
   weight within 2 units of its weight. *)
Definition donor_ages (df : DataFrame) (row : Row) : list Q :=
  flat_map
    (fun ir =>
       match known "age" (snd ir) with
       | Some a =>
           if andb (within (5 # 2) (known "height" (snd ir))
                           (known "height" row))
                   (within 2 (known "weight" (snd ir)) (known "weight" row))
           then [a] else []
       | None => []
       end)
    (rows df).

(* Truncation toward zero, and rounding with halves upward. *)
Definition truncate (q : Q) : Z := Z.quot (Qnum q) (Zpos (Qden q)).
Definition round_half_up (q : Q) : Z := Qfloor (q + (1 # 2)).

(* The columns age, height and weight hold numbers or missing values. *)
Definition float_cell (v : value) : Prop :=
  match v with Str _ => False | _ => True end.

Definition numeric_frame (df : DataFrame) : Prop :=
  (forall c, In c required_columns -> In c (columns df)) /\
  (forall ir c, In ir (rows df) -> In c required_columns ->
                float_cell (Pd.cell c (snd ir))).

Definition numeric_row (r : Row) : Prop :=
  forall c, In c required_columns ->
            exists v, Dict.get String.eqb c r = Some v /\ float_cell v.

(** ** Counting the records of a class *)

Definition class_count (s : Series) (label : value) : Z :=
  Z.of_nat (List.length (filter (fun iv => value_eq (snd iv) label) s)).

(* The labels of unique() are pairwise different. *)
Definition distinct_labels (l : list value) : Prop :=
  ForallOrdPairs (fun a b => same_value a b = false) l.

(* The test part drawn for one label by train_test_split_by_category. *)
Definition drawn (permutation : nat -> list nat) (y : Series)
    (label : value) (part : list Z) : Prop :=
  exists tr,
    Sk.train_test_split permutation (label_indices y label) = Ok (tr, part).

(** ** The aggregate rows of a report *)

Definition aggregate_keys : list string :=
  ["accuracy"; "macro avg"; "weighted avg"].

Definition is_aggregate (kv : string * report_value) : bool :=
  mem_string (fst kv) aggregate_keys.

(** ** Readable names of the classes of a report *)

(* The entry under the readable name of its class code, if it has one. *)
Definition readable (kv : string * report_value) : string * report_value :=
  (match Dict.get String.eqb (fst kv) LABELS with
   | Some name => name
   | None => fst kv
   end, snd kv).

Definition has_label (kv : string * report_value) : bool :=
  Dict.mem String.eqb (fst kv) LABELS.

Definition unnamed_entries (l : Report) : Report :=
  filter (fun kv => negb (has_label kv)) l.

Definition named_entries (l : Report) : Report :=
  map readable (filter has_label l).

(** ** Columns whose cells all satisfy a property *)

Definition column_in (P : value -> Prop) (c : string) (df : DataFrame)
  : Prop :=
  forall ir, In ir (rows df) -> P (Pd.cell c (snd ir)).

(* The encodings of the categorical fields. *)
Definition axis_code (n : nat) (v : value) : Prop :=
  exists i, v = Num (inject_Z i) /\ 0 <= i < Z.of_nat n.

Definition pacemaker_flag (v : value) : Prop := v = Num 0 \/ v = Num 1.

Definition diagnosis_code (v : value) : Prop :=
  v = NaN \/ exists c, v = Num (inject_Z c) /\ 0 <= c <= 9.

Definition is_number (v : value) : Prop := exists q, v = Num q.

(** ** Sample inputs *)

Definition y_all_codes : list Z := [0; 1; 1].
Definition y_gap : list Z := [0; 2].
Definition weights_all_codes : list (Z * float) :=
  [(0, Fin (3 # 1)); (1, Fin (3 # 2))].
Definition weights_gap : list (Z * float) :=
  [(0, Fin (2 # 1)); (1, PosInf); (2, Fin (2 # 1))].

Definition grid_balanced : grid :=
  [("n_estimators", [PInt 50; PInt 100; PInt 200]);
   ("class_weight", [PStr "balanced"])].

Definition table_three_columns : DataFrame :=
  {| columns := ["age"; "height"; "weight"]; rows := [] |}.
Definition importances_two : list Q := [1 # 2; 1 # 2].
Definition importances_three : list Q := [1 # 4; 1 # 2; 1 # 4].

Definition table_height_weight : DataFrame :=
  {| columns := ["height"; "weight"];
     rows := [(0, [("height", Num 170); ("weight", Num 70)])] |}.
Definition table_without_age : DataFrame :=
  {| columns := DROP_COLUMNS ++ ["height"; "weight"];
     rows := [(0, [("height", Num 170); ("weight", Num 70)])] |}.

(* A test set with the classes 0 and 1 only, predicted exactly. *)
Definition y_two_classes : list Z := [0; 0; 1].

(* The report scikit-learn gives for it. *)
Definition report_two_classes : Report :=
  [("0", Metrics [("precision", 1%Q); ("recall", 1%Q); ("f1-score", 1%Q);
                  ("support", 2%Q)]);
   ("1", Metrics [("precision", 1%Q); ("recall", 1%Q); ("f1-score", 1%Q);
                  ("support", 1%Q)]);
   ("accuracy", Scalar 1%Q);
   ("macro avg", Metrics [("precision", 1%Q); ("recall", 1%Q); ("f1-score", 1%Q);
                          ("support", 3%Q)]);
   ("weighted avg", Metrics [("precision", 1%Q); ("recall", 1%Q);
                             ("f1-score", 1%Q); ("support", 3%Q)])].

Definition classification_report_two_classes (y y_pred : list Z)
  : result Report := Ok report_two_classes.

Definition patient (age height weight : value) : Row :=
  [("age", age); ("height", height); ("weight", weight); ("sex", Num 1)].

Definition patients : DataFrame :=
  {| columns := ["age"; "height"; "weight"; "sex"];
     rows := [(0, patient NaN (Num 170) (Num 70));
              (1, patient (Num 60) (Num 171) (Num 71));
              (2, patient (Num 51) (Num 168) (Num 69));
              (3, patient (Num 20) (Num 150) (Num 50));
              (4, patient NaN (Num 170) (Num 71))] |}.

Definition diagnosed (code : Q) : Row :=
  [("sex", Num 1); ("diagnosi", Num code)].

(* Seven records: five of class 0, two of class 1. *)
Definition cohort : DataFrame :=
  {| columns := ["sex"; "diagnosi"];
     rows := [(0, diagnosed 0); (1, diagnosed 1); (2, diagnosed 0);
              (3, diagnosed 0); (4, diagnosed 1); (5, diagnosed 0);
              (6, diagnosed 0)] |}.

(* Three records, the class 1 with a single member. *)
Definition cohort_single : DataFrame :=
  {| columns := ["sex"; "diagnosi"];
     rows := [(0, diagnosed 0); (1, diagnosed 1); (2, diagnosed 0)] |}.

Definition reversed (n : nat) : list nat := rev (seq 0 n).

Definition cohort_features (i : Z) : Z * Row := (i, [("sex", Num 1)]).

Definition cohort_X_train : DataFrame :=
  {| columns := ["sex"];
     rows := map cohort_features [0; 1; 2; 3; 5] |}.
Definition cohort_X_test : DataFrame :=
  {| columns := ["sex"]; rows := map cohort_features [6; 4] |}.
Definition cohort_y : Series :=
  [(0, Num 0); (1, Num 1); (2, Num 0); (3, Num 0); (4, Num 1); (5, Num 0);
   (6, Num 0)].
Definition cohort_y_train : Series :=
  [(0, Num 0); (1, Num 1); (2, Num 0); (3, Num 0); (5, Num 0)].
Definition cohort_y_test : Series := [(6, Num 0); (4, Num 1)].

(* Three records, the diagnosis of one of them unknown. *)
Definition cohort_unlabelled : DataFrame :=
  {| columns := ["sex"; "diagnosi"];
     rows := [(0, diagnosed 0); (1, [("sex", Num 1); ("diagnosi", NaN)]);
              (2, diagnosed 0)] |}.

(* The confusion matrix of a test set that holds one record of each of the
   ten classes, each predicted as itself. *)
Definition identity_matrix : list (list Z) :=
  map (fun i => map (fun j => if Nat.eqb i j then 1 else 0) (seq 0 10))
      (seq 0 10).

Definition y_negative : list Z := [0; -1; 1].

(* A raw table with the administrative columns, and an imputation of
   height and weight that leaves the column as it is. *)
Definition raw_record (age : value) (axis pacemaker diagnosi : value) : Row :=
  [("ecg_id", Num 1); ("age", age); ("height", Num 170); ("weight", Num 70);
   ("sex", Num 1); ("heart_axis", axis); ("pacemaker", pacemaker);
   ("diagnosi", diagnosi)].

Definition raw_table : DataFrame :=
  {| columns := DROP_COLUMNS
                ++ ["age"; "height"; "weight"; "sex"; "heart_axis";
                    "pacemaker"; "diagnosi"];
     rows := [(0, raw_record (Num 60) (Str "MID") NaN (Str "SR"));
              (1, raw_record NaN (Str "LAD") (Str "ja, pacemaker")
                    (Str "PACE"));
              (2, raw_record (Num 50) NaN NaN (Str "STACH"));
              (3, raw_record (Num 40) (Str "MID") NaN (Str "OTHER"))] |}.

Definition keep_column (df : DataFrame) (bins : list float)
    (labels : list string) (c : string) : result (list value) :=
  match Pd.col df c with
  | Ok s => Ok (map snd s)
  | Err e => Err e
  end.

(** * Properties *)

(** ** Results and dictionaries *)

Lemma bind_ok {A B} (r : result A) (k : A -> result B) (b : B) :
  bind r k = Ok b -> exists a, r = Ok a /\ k a = Ok b.
Proof.
  destruct r as [a|e]; simpl; intros H.
  - exists a; split; [reflexivity | exact H].
  - discriminate H.
Qed.

Ltac inv_bind H :=
  let a := fresh "a" in
  let Ha := fresh "Ha" in
  apply bind_ok in H; destruct H as (a & Ha & H).

(** ** Class weights *)

Lemma count_nonneg y c : 0 <= Np.count y c.
Proof. unfold Np.count; lia. Qed.

Lemma count_pos_iff y c : 0 < Np.count y c <-> In c y.
Proof.
  unfold Np.count; induction y as [|a y IH]; cbn [filter In List.length].
  - split; [lia | tauto].
  - destruct (Z.eqb_spec c a) as [->|Hne]; cbn [List.length].
    + split; [auto | lia].
    + rewrite IH; split; [auto | intros [E|I]; [congruence | exact I]].
Qed.

Lemma count_cons y a c :
  Np.count (a :: y) c = (if c =? a then 1 else 0) + Np.count y c.
Proof.
  unfold Np.count; cbn [filter]; destruct (c =? a);
    cbn [List.length]; lia.
Qed.

Lemma amax_ge y v : In v y -> v <= Np.amax y.
Proof.
  unfold Np.amax; induction y as [|a y IH]; simpl; [tauto|].
  intros [->|I]; [lia | specialize (IH I); lia].
Qed.

Lemma amax_lower y : -1 <= Np.amax y.
Proof. unfold Np.amax; induction y; simpl; lia. Qed.

Lemma bincount_ok y counts :
  Np.bincount y = Ok counts ->
  (forall v, In v y -> 0 <= v) /\
  counts = map (fun i => Np.count y (Z.of_nat i))
               (seq 0 (Z.to_nat (Np.amax y + 1))).
Proof.
  unfold Np.bincount.
  destruct (existsb (fun v => v <? 0) y) eqn:E; [discriminate|].
  intros H; injection H as <-; split; [|reflexivity].
  intros v Hv.
  destruct (Z.ltb_spec v 0) as [Hlt|Hge]; [|exact Hge].
  assert (existsb (fun v => v <? 0) y = true) as C.
  { apply existsb_exists; exists v; split; [exact Hv | now apply Z.ltb_lt]. }
  congruence.
Qed.


(* One sample falls in exactly one bin. *)
Lemma sum_indicator (a : Z) (n : nat) :
  0 <= a < Z.of_nat n ->
  sum (map (fun i => if Z.of_nat i =? a then 1 else 0) (seq 0 n)) = 1.
Proof.
  induction n as [|n IH]; [lia|].
  intros Ha; rewrite seq_S, map_app; simpl.
  assert (forall l m, sum (l ++ m) = sum l + sum m) as Happ.
  { induction l; simpl; intros; [reflexivity | rewrite IHl; lia]. }
  rewrite Happ; simpl.
  destruct (Z.eqb_spec (Z.of_nat n) a) as [E|N].
  - assert (sum (map (fun i => if Z.of_nat i =? a then 1 else 0) (seq 0 n)) = 0)
      as ->; [|lia].
    clear IH Happ Ha; subst a.
    assert (forall k s, (s + k <= n)%nat ->
              sum (map (fun i => if Z.of_nat i =? Z.of_nat n then 1 else 0)
                       (seq s k)) = 0) as G.
    { induction k as [|k IHk]; simpl; intros s Hs; [reflexivity|].
      destruct (Z.eqb_spec (Z.of_nat s) (Z.of_nat n)); [lia|].
      rewrite IHk; lia. }
    apply G; lia.
  - rewrite IH; lia.
Qed.

Lemma sum_map_add (f g : nat -> Z) l :
  sum (map (fun i => f i + g i) l) = sum (map f l) + sum (map g l).
Proof. induction l; simpl; lia. Qed.

Lemma sum_counts (n : nat) y :
  (forall v, In v y -> 0 <= v < Z.of_nat n) ->
  sum (map (fun i => Np.count y (Z.of_nat i)) (seq 0 n))
  = Z.of_nat (List.length y).
Proof.
  induction y as [|a y IH]; intros Hy.
  - simpl. induction (seq 0 n); simpl; [reflexivity | exact IHl].
  - rewrite (map_ext _ (fun i => (if Z.of_nat i =? a then 1 else 0)
                                 + Np.count y (Z.of_nat i)))
      by (intros; apply count_cons).
    rewrite sum_map_add, sum_indicator, IH.
    + simpl List.length; lia.
    + intros v Hv; apply Hy; now right.
    + apply Hy; now left.
Qed.

Lemma bincount_sum y counts :
  Np.bincount y = Ok counts -> sum counts = Z.of_nat (List.length y).
Proof.
  intros H; destruct (bincount_ok _ _ H) as (Hnn & ->).
  apply sum_counts; intros v Hv.
  pose proof (Hnn v Hv); pose proof (amax_ge _ _ Hv); lia.
Qed.

Lemma get_map_seq {V} (f : nat -> V) (c : Z) (s n : nat) :
  Dict.get Z.eqb c (map (fun i => (Z.of_nat i, f i)) (seq s n))
  = if andb (Z.of_nat s <=? c) (c <? Z.of_nat (s + n))
    then Some (f (Z.to_nat c)) else None.
Proof.
  revert s; induction n as [|n IH]; intros s; simpl.
  - destruct (Z.leb_spec (Z.of_nat s) c), (Z.ltb_spec c (Z.of_nat (s + 0)));
      simpl; try reflexivity; lia.
  - destruct (Z.eqb_spec c (Z.of_nat s)) as [->|N].
    + rewrite Nat2Z.id.
      destruct (Z.leb_spec (Z.of_nat s) (Z.of_nat s)),
               (Z.ltb_spec (Z.of_nat s) (Z.of_nat (s + S n)));
        simpl; try reflexivity; lia.
    + rewrite IH.
      destruct (Z.leb_spec (Z.of_nat (S s)) c),
               (Z.ltb_spec c (Z.of_nat (S s + n))),
               (Z.leb_spec (Z.of_nat s) c),
               (Z.ltb_spec c (Z.of_nat (s + S n)));
        simpl; try reflexivity; lia.
Qed.

(* The entry of the weight map under a code, in terms of y_train. *)
Lemma class_weight_get y cw c :
  class_weight y = Ok cw ->
  Dict.get Z.eqb c cw
  = if andb (0 <=? c) (c <=? Np.amax y)
    then Some (Np.true_divide (Z.of_nat (List.length y)) (Np.count y c))
    else None.
Proof.
  unfold class_weight; intros H; inv_bind H; injection H as <-.
  pose proof (bincount_sum _ _ Ha) as Hs.
  destruct (bincount_ok _ _ Ha) as (_ & Hc).
  unfold class_weight_of_counts; rewrite get_map_seq, Hs.
  assert (List.length a = Z.to_nat (Np.amax y + 1)) as Hl
    by (rewrite Hc, length_map, length_seq; reflexivity).
  pose proof (amax_lower y).
  simpl Z.of_nat at 1.
  destruct (Z.leb_spec 0 c), (Z.ltb_spec c (Z.of_nat (0 + List.length a))),
           (Z.leb_spec c (Np.amax y)); simpl; try reflexivity; try lia.
  f_equal; f_equal.
  rewrite Hc.
  rewrite (nth_indep _ 0 (Np.count y (Z.of_nat 0)))
    by (rewrite length_map, length_seq; lia).
  rewrite (map_nth (fun i => Np.count y (Z.of_nat i))), seq_nth by lia.
  simpl; rewrite Z2Nat.id by lia; reflexivity.
Qed.

Lemma mem_get {V} (c : Z) (d : list (Z * V)) :
  Dict.mem Z.eqb c d = true <-> exists w, Dict.get Z.eqb c d = Some w.
Proof.
  unfold Dict.mem; destruct (Dict.get Z.eqb c d) as [w|].
  - split; [eauto | reflexivity].
  - split; [discriminate | intros (w & H); discriminate].
Qed.

(** C3.  For a training label sequence in which every class of the weight
    map has at least one sample, the map computed by train holds every
    label of y_train, gives each class c the weight
    total_samples / count(c), and every weight in it is finite and
    strictly positive. *)
Theorem class_weight_inverse_frequency (y_train : list Z) cw :
  class_weight y_train = Ok cw ->
  (forall c, Dict.mem Z.eqb c cw = true -> 0 < Np.count y_train c) ->
  (forall c, In c y_train -> Dict.mem Z.eqb c cw = true) /\
  (forall c w, Dict.get Z.eqb c cw = Some w ->
     exists q, w = Fin q /\
       (q == inject_Z (Z.of_nat (List.length y_train))
             / inject_Z (Np.count y_train c))%Q /\
       (0 < q)%Q /\ isfinite w = true /\ fpositive w = true).
Proof.
  intros Hcw Hall; split.
  - intros c Hc; apply mem_get.
    rewrite (class_weight_get _ _ c Hcw).
    unfold class_weight in Hcw; inv_bind Hcw.
    destruct (bincount_ok _ _ Ha) as (Hnn & _).
    pose proof (Hnn c Hc); pose proof (amax_ge _ _ Hc).
    destruct (Z.leb_spec 0 c), (Z.leb_spec c (Np.amax y_train));
      simpl; try lia; eauto.
  - intros c w Hget.
    assert (0 < Np.count y_train c) as Hpos
      by (apply Hall, mem_get; eauto).
    rewrite (class_weight_get _ _ c Hcw) in Hget.
    destruct (andb (0 <=? c) (c <=? Np.amax y_train)); [|discriminate].
    injection Hget as <-.
    unfold Np.true_divide.
    destruct (Z.eqb_spec (Np.count y_train c) 0) as [E|_]; [lia|].
    assert (0 < Z.of_nat (List.length y_train)) as Hlen.
    { apply count_pos_iff in Hpos.
      destruct y_train; [destruct Hpos | simpl List.length; lia]. }
    assert (0 < inject_Z (Z.of_nat (List.length y_train))
                / inject_Z (Np.count y_train c))%Q as Hq.
    { apply Qlt_shift_div_l.
      - change 0%Q with (inject_Z 0); rewrite <- Zlt_Qlt; exact Hpos.
      - rewrite Qmult_0_l.
        change 0%Q with (inject_Z 0); rewrite <- Zlt_Qlt; exact Hlen. }
    eexists; split; [reflexivity|].
    split; [reflexivity|]. split; [exact Hq|]. split; [reflexivity|].
    simpl. destruct (Qlt_le_dec 0 _) as [_|Hle]; [reflexivity|].
    exfalso; eapply Qlt_not_le; eassumption.
Qed.

Lemma class_weight_inverse_frequency_witness :
  (forall c, In c y_all_codes -> Dict.mem Z.eqb c weights_all_codes = true) /\
  (forall c w,
     Dict.get Z.eqb c weights_all_codes = Some w ->
     exists q, w = Fin q /\
       (q == inject_Z (Z.of_nat (List.length y_all_codes))
             / inject_Z (Np.count y_all_codes c))%Q /\
       (0 < q)%Q /\ isfinite w = true /\ fpositive w = true).
Proof.
  apply (class_weight_inverse_frequency y_all_codes weights_all_codes eq_refl).
  intros c; unfold Dict.mem; simpl.
  destruct (Z.eqb_spec c 0) as [->|N0]; [reflexivity|].
  destruct (Z.eqb_spec c 1) as [->|N1]; [reflexivity|].
  discriminate.
Defined.

(** C10.  train divides the total sample count by the bincount of every
    integer code from 0 through the maximum label: for a y_train whose
    labels skip a code c below some label m, the divisor for c is zero and
    the weight stored for c is infinite, hence not finite, although every
    class that occurs in y_train has at least one sample. *)
Theorem class_weight_gap_not_finite (y_train : list Z) cw (c m : Z) :
  class_weight y_train = Ok cw ->
  In m y_train -> 0 <= c < m -> ~ In c y_train ->
  (forall v, In v y_train -> 0 < Np.count y_train v) /\
  Np.count y_train c = 0 /\
  Dict.get Z.eqb c cw
  = Some (Np.true_divide (Z.of_nat (List.length y_train)) 0) /\
  Dict.get Z.eqb c cw = Some PosInf /\
  (forall w, Dict.get Z.eqb c cw = Some w -> isfinite w = false).
Proof.
  intros Hcw Hm Hc Hnot.
  assert (Np.count y_train c = 0) as H0.
  { pose proof (count_nonneg y_train c).
    destruct (Z.eq_dec (Np.count y_train c) 0) as [E|N]; [exact E|].
    exfalso; apply Hnot, count_pos_iff; lia. }
  assert (Dict.get Z.eqb c cw
          = Some (Np.true_divide (Z.of_nat (List.length y_train)) 0)) as Hg.
  { rewrite (class_weight_get _ _ c Hcw), H0.
    pose proof (amax_ge _ _ Hm).
    destruct (Z.leb_spec 0 c), (Z.leb_spec c (Np.amax y_train));
      simpl; try lia; reflexivity. }
  assert (Np.true_divide (Z.of_nat (List.length y_train)) 0 = PosInf) as Hinf.
  { unfold Np.true_divide; simpl.
    destruct y_train as [|a l]; [destruct Hm|].
    simpl List.length.
    destruct (Z.eqb_spec (Z.of_nat (S (List.length l))) 0); [lia|].
    destruct (Z.ltb_spec 0 (Z.of_nat (S (List.length l)))); [reflexivity|lia]. }
  split; [intros v Hv; now apply count_pos_iff|].
  split; [exact H0|]. split; [exact Hg|].
  split; [rewrite Hg, Hinf; reflexivity|].
  intros w Hw; rewrite Hg, Hinf in Hw; injection Hw as <-; reflexivity.
Qed.

Lemma class_weight_gap_not_finite_witness :
  (forall v, In v y_gap -> 0 < Np.count y_gap v) /\
  Np.count y_gap 1 = 0 /\
  Dict.get Z.eqb 1 weights_gap
  = Some (Np.true_divide (Z.of_nat (List.length y_gap)) 0) /\
  Dict.get Z.eqb 1 weights_gap = Some PosInf /\
  (forall w, Dict.get Z.eqb 1 weights_gap = Some w -> isfinite w = false).
Proof.
  apply (class_weight_gap_not_finite y_gap weights_gap 1 2 eq_refl).
  - simpl; auto.
  - lia.
  - simpl; intros [H|[H|H]]; try discriminate H; exact H.
Defined.

(** ** Dictionaries with text keys *)

Lemma dict_get_set_same {V} (k : string) (v : V) d :
  Dict.get String.eqb k (Dict.set String.eqb k v d) = Some v.
Proof.
  induction d as [|[k' v'] d IH]; simpl.
  - rewrite String.eqb_refl; reflexivity.
  - destruct (String.eqb k k') eqn:E; simpl; rewrite E; [reflexivity | exact IH].
Qed.

Lemma dict_get_set_other {V} (k k0 : string) (v : V) d :
  k0 <> k ->
  Dict.get String.eqb k0 (Dict.set String.eqb k v d)
  = Dict.get String.eqb k0 d.
Proof.
  intros N; induction d as [|[k' v'] d IH]; simpl.
  - destruct (String.eqb_spec k0 k); [contradiction | reflexivity].
  - destruct (String.eqb_spec k k') as [->|Nk]; simpl.
    + destruct (String.eqb_spec k0 k'); [contradiction | reflexivity].
    + destruct (String.eqb_spec k0 k'); [reflexivity | exact IH].
Qed.

Lemma dict_set_keys {V} (k : string) (v w : V) d :
  Dict.get String.eqb k d = Some w ->
  map fst (Dict.set String.eqb k v d) = map fst d.
Proof.
  induction d as [|[k' v'] d IH]; simpl; [discriminate|].
  destruct (String.eqb k k'); simpl; intros H; [reflexivity|].
  rewrite IH by exact H; reflexivity.
Qed.

(** ** train and the caller's search grid *)




(** ** train and the number of classes *)






(** ** list.sort *)

Section ListSortFacts.
Context {A : Type}.
Variable key : A -> Q.

Lemma insert_by_perm x l : Permutation (insert_by key x l) (x :: l).
Proof.
  induction l as [|y l IH]; simpl; [reflexivity|].
  destruct (Qle_bool (key x) (key y)); [reflexivity|].
  rewrite IH; apply perm_swap.
Qed.

Lemma stable_sort_perm l : Permutation (stable_sort key l) l.
Proof.
  induction l as [|x l IH]; simpl; [reflexivity|].
  rewrite insert_by_perm; now constructor.
Qed.

Lemma insert_by_ascending x l :
  ascending key l -> ascending key (insert_by key x l).
Proof.
  unfold ascending; induction l as [|y l IH]; simpl; intros Hs.
  - repeat constructor.
  - apply StronglySorted_inv in Hs; destruct Hs as (Hl & Hy).
    destruct (Qle_bool (key x) (key y)) eqn:E.
    + apply Qle_bool_iff in E.
      constructor; [constructor; assumption|].
      constructor; [exact E|].
      rewrite Forall_forall in *; intros z Hz.
      eapply Qle_trans; [exact E | now apply Hy].
    + constructor; [now apply IH|].
      assert (key y <= key x)%Q as Hyx.
      { destruct (Qlt_le_dec (key y) (key x)) as [L|L].
        - now apply Qlt_le_weak.
        - apply Qle_bool_iff in L; congruence. }
      rewrite Forall_forall in *; intros z Hz.
      apply (Permutation_in _ (insert_by_perm x l)) in Hz.
      destruct Hz as [<-|Hz]; [exact Hyx | now apply Hy].
Qed.

Lemma stable_sort_ascending l : ascending key (stable_sort key l).
Proof.
  induction l as [|x l IH]; simpl; [constructor|].
  now apply insert_by_ascending.
Qed.

Lemma sorted_snoc (R : A -> A -> Prop) l x :
  StronglySorted R l -> Forall (fun y => R y x) l ->
  StronglySorted R (l ++ [x]).
Proof.
  induction 1 as [|y l Hs IH Hy]; simpl; intros Hall.
  - repeat constructor.
  - apply Forall_cons_iff in Hall; destruct Hall as (Hyx & Hall).
    constructor; [now apply IH|].
    apply Forall_app; split; [exact Hy | now repeat constructor].
Qed.

Lemma ascending_rev l : ascending key l -> descending key (rev l).
Proof.
  unfold ascending, descending; induction 1 as [|x l Hs IH Hx]; simpl.
  - constructor.
  - apply sorted_snoc; [exact IH | now apply Forall_rev].
Qed.

(* Stability: the elements of one key keep their order. *)
Lemma insert_by_filter v x l :
  filter (fun a => Qeq_bool (key a) v) (insert_by key x l)
  = filter (fun a => Qeq_bool (key a) v) (x :: l).
Proof.
  induction l as [|y l IH]; [reflexivity|].
  cbn [insert_by].
  destruct (Qle_bool (key x) (key y)) eqn:E; [reflexivity|].
  cbn [filter] in *; rewrite IH.
  destruct (Qeq_bool (key x) v) eqn:Ex, (Qeq_bool (key y) v) eqn:Ey;
    try reflexivity.
  apply Qeq_bool_iff in Ex, Ey.
  assert (Qle_bool (key x) (key y) = true) as C.
  { apply Qle_bool_iff; rewrite Ex, Ey; apply Qle_refl. }
  congruence.
Qed.

Lemma stable_sort_filter v l :
  filter (fun a => Qeq_bool (key a) v) (stable_sort key l)
  = filter (fun a => Qeq_bool (key a) v) l.
Proof.
  induction l as [|x l IH]; [reflexivity|].
  cbn [stable_sort fold_right]; fold (stable_sort key l).
  rewrite insert_by_filter; cbn [filter]; rewrite IH; reflexivity.
Qed.

Lemma list_sort_reverse_perm l : Permutation (list_sort key true l) l.
Proof.
  unfold list_sort.
  rewrite <- Permutation_rev, stable_sort_perm, <- Permutation_rev.
  reflexivity.
Qed.

Lemma list_sort_reverse_descending l : descending key (list_sort key true l).
Proof. apply ascending_rev, stable_sort_ascending. Qed.

Lemma list_sort_reverse_stable v l :
  filter (fun a => Qeq_bool (key a) v) (list_sort key true l)
  = filter (fun a => Qeq_bool (key a) v) l.
Proof.
  unfold list_sort.
  rewrite filter_rev, stable_sort_filter, filter_rev, rev_involutive.
  reflexivity.
Qed.
End ListSortFacts.

(** ** select_features *)

Lemma map_fst_combine {A B} (l : list A) (m : list B) :
  List.length m = List.length l -> map fst (combine l m) = l.
Proof.
  revert m; induction l as [|a l IH]; intros [|b m]; simpl;
    intros E; try discriminate E; [reflexivity|].
  injection E as E; rewrite (IH _ E); reflexivity.
Qed.

(** C8 (counterexample).  select_features does not return one pair per
    input column for every model and table: a table of three columns and
    a model with two importances give two pairs. *)
Lemma select_features_truncates :
  ~ (forall (Model : Type) (feature_importances_ : Model -> list Q)
            (rf : Model) (X : DataFrame),
        List.length (select_features Model feature_importances_ rf X)
        = List.length (columns X)).
Proof.
  intros H.
  specialize (H (list Q) (fun m => m) importances_two table_three_columns).
  vm_compute in H; discriminate H.
Qed.

(** C8 (amended).  For every trained model and feature table with as many
    columns as the model has importances, select_features returns one
    (name, importance) pair per input column, sorted by importance in
    non-increasing order, with ties between equal importances kept in
    input column order. *)
Theorem select_features_ranked (Model : Type)
    (feature_importances_ : Model -> list Q) (rf : Model) (X : DataFrame) :
  List.length (feature_importances_ rf) = List.length (columns X) ->
  let ranked := select_features Model feature_importances_ rf X in
  Permutation ranked (combine (columns X) (feature_importances_ rf)) /\
  Permutation (map fst ranked) (columns X) /\
  List.length ranked = List.length (columns X) /\
  StronglySorted (fun a b => (snd b <= snd a)%Q) ranked /\
  (forall v,
     filter (fun p => Qeq_bool (snd p) v) ranked
     = filter (fun p => Qeq_bool (snd p) v)
         (combine (columns X) (feature_importances_ rf))).
Proof.
  intros Hlen ranked; unfold ranked, select_features.
  pose proof (list_sort_reverse_perm (@snd string Q)
                (combine (columns X) (feature_importances_ rf))) as P.
  assert (map fst (combine (columns X) (feature_importances_ rf))
          = columns X) as Hfst by (now apply map_fst_combine).
  split; [exact P|].
  split; [rewrite <- Hfst at 2; now apply Permutation_map|].
  split.
  { rewrite (Permutation_length P), length_combine, Hlen.
    apply Nat.min_id. }
  split; [apply list_sort_reverse_descending|].
  intros v; apply list_sort_reverse_stable.
Qed.

Lemma select_features_ranked_witness :
  select_features (list Q) (fun m => m) importances_three table_three_columns
  = [("height", 1 # 2); ("age", 1 # 4); ("weight", 1 # 4)] /\
  Permutation
    (map fst (select_features (list Q) (fun m => m) importances_three
                table_three_columns))
    (columns table_three_columns).
Proof.
  split; [reflexivity|].
  exact (proj1 (proj2 (select_features_ranked (list Q) (fun m => m)
                         importances_three table_three_columns eq_refl))).
Defined.

(** ** format_df and the required columns *)

Lemma mem_string_In s l : mem_string s l = true <-> In s l.
Proof.
  unfold mem_string; rewrite existsb_exists; split.
  - intros (x & Hx & E); apply String.eqb_eq in E; now subst.
  - intros H; exists s; split; [exact H | apply String.eqb_refl].
Qed.

Lemma mem_string_filter (f : string -> bool) s l :
  f s = true -> mem_string s (filter f l) = mem_string s l.
Proof.
  intros Hf.
  destruct (mem_string s l) eqn:E.
  - apply mem_string_In; apply filter_In; split; [|exact Hf].
    now apply mem_string_In.
  - destruct (mem_string s (filter f l)) eqn:E'; [|reflexivity].
    apply mem_string_In, filter_In in E'; destruct E' as (E' & _).
    apply mem_string_In in E'; congruence.
Qed.

(* Dropping the administrative columns keeps or loses no required one. *)
Lemma required_after_drop df df' :
  Pd.drop_columns df DROP_COLUMNS = Ok df' ->
  filter (fun c => negb (mem_string c (columns df'))) required_columns
  = filter (fun c => negb (mem_string c (columns df))) required_columns.
Proof.
  unfold Pd.drop_columns.
  destruct (filter _ DROP_COLUMNS); [|discriminate].
  intros H; injection H as <-; cbn [columns].
  unfold required_columns; cbn [filter].
  rewrite !mem_string_filter by reflexivity; reflexivity.
Qed.

(** C6 (counterexample).  format_df does not always fail with the
    missing-required-columns error when a required column is absent: on a
    table with the columns height and weight only, the first statement,
    the drop of the administrative columns, raises KeyError. *)
Lemma format_df_key_error_first :
  ~ (forall (groupby_fill_mean :
               DataFrame -> list float -> list string -> string
               -> result (list value))
            (df : DataFrame),
        (exists c, In c required_columns /\ ~ In c (columns df)) ->
        exists missing,
          format_df groupby_fill_mean df = Err (MissingColumns missing)).
Proof.
  intros H.
  destruct (H (fun _ _ _ _ => Ok []) table_height_weight) as (m & Hm).
  - exists "age"; split; [now left|].
    simpl; intros [E|[E|[]]]; discriminate E.
  - vm_compute in Hm; discriminate Hm.
Qed.

(** C6 (amended; also X2).  format_df fails whenever one of the required columns
    "age", "height", "weight" is absent from the input table: with the
    KeyError of the drop when some column of the drop list is absent as
    well, and otherwise with the error of the required-columns check,
    which names the absent required columns and is raised after the drop
    and before any imputation or encoding. *)
Theorem format_df_missing_required
    (groupby_fill_mean :
       DataFrame -> list float -> list string -> string
       -> result (list value))
    (df : DataFrame) :
  (exists c, In c required_columns /\ ~ In c (columns df)) ->
  format_df groupby_fill_mean df
  = match filter (fun l => negb (mem_string l (columns df))) DROP_COLUMNS with
    | [] =>
        Err (MissingColumns
               (filter (fun c => negb (mem_string c (columns df)))
                       required_columns))
    | missing => Err (KeyError missing)
    end.
Proof.
  intros (c & Hc & Hnot).
  unfold format_df.
  destruct (Pd.drop_columns df DROP_COLUMNS) as [df'|e] eqn:Hd.
  - pose proof (required_after_drop _ _ Hd) as Hreq.
    assert (In c (filter (fun c0 => negb (mem_string c0 (columns df)))
                         required_columns)) as Hin.
    { apply filter_In; split; [exact Hc|].
      destruct (mem_string c (columns df)) eqn:E; [|reflexivity].
      apply mem_string_In in E; contradiction. }
    cbn [bind]; unfold fill_age_height_weight; rewrite Hreq.
    unfold Pd.drop_columns in Hd.
    destruct (filter (fun l => negb (mem_string l (columns df))) DROP_COLUMNS)
      as [|d ds]; [|discriminate Hd].
    destruct (filter (fun c0 => negb (mem_string c0 (columns df)))
                     required_columns) as [|m ms]; [destruct Hin|].
    reflexivity.
  - unfold Pd.drop_columns in Hd.
    destruct (filter (fun l => negb (mem_string l (columns df))) DROP_COLUMNS)
      as [|d ds]; [discriminate Hd|].
    injection Hd as <-; reflexivity.
Qed.

Lemma format_df_missing_required_witness :
  format_df (fun _ _ _ _ => Ok []) table_without_age
  = Err (MissingColumns ["age"]).
Proof.
  refine (format_df_missing_required (fun _ _ _ _ => Ok [])
            table_without_age _).
  exists "age"; split; [now left|].
  intros H; apply mem_string_In in H; vm_compute in H; discriminate H.
Defined.

(** ** The confusion matrix *)




Lemma CM_LABELS_value :
  CM_LABELS = ["NSR"; "AFIB"; "SARRH"; "PACE"; "SVARR"; "BIGU"; "AFLT";
               "SVTAC"; "PSVT"; "TRIGU"].
Proof. reflexivity. Qed.

(** C5.  On a test set that holds the classes 0 and 1 only (true labels
    [0, 0, 1], predicted alike) the confusion matrix of create_reports is
    the 2 x 2 matrix over the two labels that occur, whereas the closed
    label set CM_LABELS, against which create_confusion_matrix draws it,
    has ten labels: the eight absent labels have no row and no column. *)
Theorem create_reports_matrix_omits_absent_labels :
  create_reports classification_report_two_classes
    y_two_classes y_two_classes
  = Ok (relabel report_two_classes, [[2; 0]; [0; 1]]) /\
  List.length CM_LABELS = 10%nat /\
  hm_z (create_confusion_matrix [[2; 0]; [0; 1]]) = [[0; 1]; [2; 0]] /\
  List.length (hm_y (create_confusion_matrix [[2; 0]; [0; 1]])) = 10%nat.
Proof. repeat split. Qed.

(** ** The table of a report *)

Lemma percent_or_count_spec (vv : Q) :
  ((1 < vv)%Q -> percent_or_count vv = vv) /\
  ((vv <= 1)%Q -> percent_or_count vv = py_round2 (vv * 100)).
Proof.
  unfold percent_or_count; destruct (Qlt_le_dec 1 vv) as [L|L]; split;
    intros H; try reflexivity.
  - exfalso; eapply Qlt_not_le; eassumption.
  - exfalso; eapply Qlt_not_le; eassumption.
Qed.

(** C7.  For the report of a test set in which class 1 has a single
    sample, create_report_table shows the support of that class as 100:
    a support value of 1 is not left unchanged but multiplied by 100 like
    a percentage, while the support 2 of class 0 and the totals stay as
    they are. *)
Theorem create_report_table_support_one :
  percent_or_count 1 = py_round2 (1 * 100) /\
  Qeq (percent_or_count 1) 100 /\
  (exists r,
     create_report_table report_two_classes
     = Ok (r,
           {| header := table_columns;
              cells :=
                [[TText "0"; TText "1"; TText "macro avg";
                  TText "weighted avg"; TText ""];
                 [TNum (py_round2 (1 * 100)); TNum (py_round2 (1 * 100));
                  TNum (py_round2 (1 * 100)); TNum (py_round2 (1 * 100));
                  TText ""];
                 [TNum (py_round2 (1 * 100)); TNum (py_round2 (1 * 100));
                  TNum (py_round2 (1 * 100)); TNum (py_round2 (1 * 100));
                  TText ""];
                 [TNum (py_round2 (1 * 100)); TNum (py_round2 (1 * 100));
                  TNum (py_round2 (1 * 100)); TNum (py_round2 (1 * 100));
                  TText "accuracy"];
                 [TNum 2; TNum (py_round2 (1 * 100)); TNum 3; TNum 3;
                  TPercent (py_round2 (1 * 100))]] |})).
Proof.
  split; [reflexivity|]. split; [reflexivity|].
  eexists; reflexivity.
Qed.

(** ** fill_age *)

Lemma mapM_ok_map {A B} (f : A -> result B) (g : A -> B) l :
  (forall a, In a l -> f a = Ok (g a)) -> mapM f l = Ok (map g l).
Proof.
  induction l as [|a l IH]; simpl; intros H; [reflexivity|].
  rewrite (H a) by now left.
  simpl; rewrite IH by (intros; apply H; now right); reflexivity.
Qed.

Lemma to_float_known c r :
  float_cell (Pd.cell c r) -> Pd.to_float (Pd.cell c r) = Ok (known c r).
Proof.
  unfold known; destruct (Pd.cell c r); simpl; intros H;
    [reflexivity | reflexivity | destruct H].
Qed.

Lemma col_floats_numeric df c :
  numeric_frame df -> In c required_columns ->
  Pd.col_floats df c = Ok (map (fun ir => known c (snd ir)) (rows df)).
Proof.
  intros (Hcols & Hcells) Hc.
  unfold Pd.col_floats, Pd.col.
  assert (mem_string c (columns df) = true) as ->
    by (apply mem_string_In, Hcols, Hc).
  cbn [bind].
  erewrite mapM_ok_map with (g := fun iv : Z * value =>
                                    match snd iv with
                                    | Num q => Some q
                                    | _ => None
                                    end).
  - rewrite map_map; reflexivity.
  - intros iv Hiv; apply in_map_iff in Hiv.
    destruct Hiv as (ir & <- & Hir); cbn [snd].
    specialize (Hcells ir c Hir Hc).
    destruct (Pd.cell c (snd ir)); simpl; [reflexivity | reflexivity|].
    destruct Hcells.
Qed.

Lemma row_float_numeric r c :
  numeric_row r -> In c required_columns ->
  Pd.row_float r c = Ok (known c r).
Proof.
  intros Hr Hc; destruct (Hr c Hc) as (v & Hv & Hf).
  unfold Pd.row_float, Pd.row_get, known, Pd.cell; rewrite Hv; simpl.
  destruct v; simpl; [reflexivity | reflexivity | destruct Hf].
Qed.

Lemma and_mask_map {A} (a b : A -> bool) l :
  Pd.and_mask (map a l) (map b l) = map (fun x => andb (a x) (b x)) l.
Proof.
  unfold Pd.and_mask; induction l as [|x l IH]; simpl; [reflexivity|].
  rewrite IH; reflexivity.
Qed.

Lemma boolean_index_map {A B} (p : A -> bool) (f : A -> B) l :
  Pd.boolean_index (map p l) (map f l) = map f (filter p l).
Proof.
  unfold Pd.boolean_index; induction l as [|x l IH]; simpl; [reflexivity|].
  destruct (p x); simpl; rewrite IH; reflexivity.
Qed.

(* The two one-sided tests of the mask make the symmetric window. *)
Lemma window_within (d : Q) (x h : option Q) :
  andb (fge x (fsub h d)) (fle x (fadd h d)) = within d x h.
Proof.
  destruct x as [a|], h as [b|]; try reflexivity.
  unfold fge; cbn [within fle fsub fadd].
  destruct (Qle_bool (Qabs (a - b)) d) eqn:E.
  - apply Qle_bool_iff, Qabs_Qle_condition in E; destruct E as (E1 & E2).
    apply andb_true_iff; split; apply Qle_bool_iff; lra.
  - apply andb_false_iff.
    destruct (Qle_bool (b - d) a) eqn:E1; [|now left].
    destruct (Qle_bool a (b + d)) eqn:E2; [|now right].
    apply Qle_bool_iff in E1, E2.
    assert (Qle_bool (Qabs (a - b)) d = true) as C.
    { apply Qle_bool_iff, Qabs_Qle_condition; split; lra. }
    congruence.
Qed.

Lemma dropna_map_Some l : Pd.dropna (map Some l) = l.
Proof.
  unfold Pd.dropna; induction l as [|x l IH]; simpl; [reflexivity|].
  rewrite IH; reflexivity.
Qed.

Lemma insert_sorted_length x l :
  List.length (Pd.insert_sorted x l) = S (List.length l).
Proof.
  induction l as [|y l IH]; simpl; [reflexivity|].
  destruct (Qle_bool x y); simpl; [reflexivity | now rewrite IH].
Qed.

Lemma sort_values_length l :
  List.length (Pd.sort_values l) = List.length l.
Proof.
  unfold Pd.sort_values; induction l as [|x l IH]; simpl; [reflexivity|].
  rewrite insert_sorted_length, IH; reflexivity.
Qed.

Lemma median_nonempty a d :
  exists m, Pd.median (map Some (a :: d)) = Some m.
Proof.
  unfold Pd.median; rewrite dropna_map_Some.
  pose proof (sort_values_length (a :: d)) as L.
  destruct (Pd.sort_values (a :: d)) as [|s ss]; [discriminate L|].
  destruct (Nat.even (List.length (s :: ss))); eauto.
Qed.

(* The ages selected by the mask are the donors' ages. *)
Lemma age_subset_donors df row :
  let P := fun ir : Z * Row =>
    andb (andb (andb (andb
      (fge (known "height" (snd ir)) (fsub (known "height" row) (5 # 2)))
      (fle (known "height" (snd ir)) (fadd (known "height" row) (5 # 2))))
      (fge (known "weight" (snd ir)) (fsub (known "weight" row) 2)))
      (fle (known "weight" (snd ir)) (fadd (known "weight" row) 2)))
      (negb (isnan (known "age" (snd ir)))) in
  map (fun ir => known "age" (snd ir)) (filter P (rows df))
  = map Some (donor_ages df row).
Proof.
  intros P; unfold donor_ages.
  induction (rows df) as [|ir l IH]; [reflexivity|].
  cbn [filter flat_map].
  rewrite map_app, <- IH.
  assert (P ir = match known "age" (snd ir) with
                 | Some _ =>
                     andb (within (5 # 2) (known "height" (snd ir))
                                  (known "height" row))
                          (within 2 (known "weight" (snd ir))
                                  (known "weight" row))
                 | None => false
                 end) as HP.
  { unfold P; rewrite <- andb_assoc,  window_within.
    rewrite <- (window_within 2).
    destruct (known "age" (snd ir)); simpl.
    - rewrite andb_true_r, andb_assoc; reflexivity.
    - rewrite !andb_false_r; reflexivity. }
  rewrite HP.
  destruct (known "age" (snd ir)) as [a|] eqn:Ha; [|reflexivity].
  destruct (andb _ _); simpl; [rewrite Ha|]; reflexivity.
Qed.

Lemma truncate_round_half_up (q : Q) :
  (0 <= q)%Q -> truncate (q + (1 # 2)) = round_half_up q.
Proof.
  intros H; unfold truncate, round_half_up, Qfloor.
  destruct (q + (1 # 2))%Q as [n d] eqn:E; cbn [Qnum Qden].
  apply Z.quot_div_nonneg; [|lia].
  assert (0 <= q + (1 # 2))%Q as Hs by lra.
  rewrite E in Hs; unfold Qle in Hs; simpl in Hs; lia.
Qed.

(* What fill_age computes on a record without age, in terms of the
   donors. *)
Lemma fill_age_missing df row :
  numeric_frame df -> numeric_row row -> known "age" row = None ->
  fill_age df row
  = match donor_ages df row with
    | [] =>
        v <- py_int (fadd (Pd.mean (map (fun ir => known "age" (snd ir))
                                        (rows df))) (1 # 2)) ;;
        Ok (Dict.set String.eqb "age" (Num (inject_Z v)) row)
    | donors =>
        v <- py_int (fadd (Pd.median (map Some donors)) (1 # 2)) ;;
        Ok (Dict.set String.eqb "age" (Num (inject_Z v)) row)
    end.
Proof.
  intros Hdf Hrow Hage.
  unfold fill_age.
  rewrite (row_float_numeric row "age" Hrow) by (simpl; auto).
  rewrite Hage; cbn [bind isnan].
  rewrite (col_floats_numeric df "height" Hdf) by (simpl; auto).
  rewrite (row_float_numeric row "height" Hrow) by (simpl; auto).
  rewrite (col_floats_numeric df "weight" Hdf) by (simpl; auto).
  rewrite (row_float_numeric row "weight" Hrow) by (simpl; auto).
  rewrite (col_floats_numeric df "age" Hdf) by (simpl; auto).
  cbn [bind].
  rewrite !map_map, !and_mask_map, boolean_index_map.
  rewrite (age_subset_donors df row).
  destruct (donor_ages df row) as [|a d]; reflexivity.
Qed.

(** C2 (also X1).  For a record whose age is missing, in a table whose columns age,
    height and weight hold numbers or missing values: if some record has a
    known age, a height within 2.5 units of the record's height and a
    weight within 2 units of its weight, the imputed age is the median of
    those donors' ages plus 0.5, truncated to an integer; otherwise it is
    the mean of the known ages plus 0.5, truncated to an integer (and the
    conversion fails when no age is known at all).  For a median or mean
    that is not negative the truncation rounds to the nearest integer,
    halves upward. *)
Theorem fill_age_imputed (df : DataFrame) (row : Row) :
  numeric_frame df -> numeric_row row -> known "age" row = None ->
  (forall a d, donor_ages df row = a :: d ->
     exists m, Pd.median (map Some (a :: d)) = Some m /\
       fill_age df row
       = Ok (Dict.set String.eqb "age"
               (Num (inject_Z (truncate (m + (1 # 2))))) row)) /\
  (donor_ages df row = [] ->
     (forall mu,
        Pd.mean (map (fun ir => known "age" (snd ir)) (rows df)) = Some mu ->
        fill_age df row
        = Ok (Dict.set String.eqb "age"
                (Num (inject_Z (truncate (mu + (1 # 2))))) row)) /\
     (Pd.mean (map (fun ir => known "age" (snd ir)) (rows df)) = None ->
      fill_age df row
      = Err (ValueError "cannot convert float NaN to integer"))) /\
  (forall q, (0 <= q)%Q -> truncate (q + (1 # 2)) = round_half_up q).
Proof.
  intros Hdf Hrow Hage.
  pose proof (fill_age_missing df row Hdf Hrow Hage) as F.
  split; [|split].
  - intros a d Hd; rewrite Hd in F.
    destruct (median_nonempty a d) as (m & Hm).
    exists m; split; [exact Hm|].
    rewrite F, Hm; reflexivity.
  - intros Hd; rewrite Hd in F; split.
    + intros mu Hmu; rewrite F, Hmu; reflexivity.
    + intros Hnone; rewrite F, Hnone; reflexivity.
  - apply truncate_round_half_up.
Qed.

Lemma patients_numeric : numeric_frame patients.
Proof.
  split.
  - intros c Hc; simpl in *; intuition.
  - intros ir c Hir Hc; simpl in Hir, Hc.
    destruct Hc as [<-|[<-|[<-|[]]]];
      destruct Hir as [<-|[<-|[<-|[<-|[<-|[]]]]]]; exact I.
Defined.

Lemma fill_age_imputed_witness :
  exists m,
    Pd.median (map Some [60; 51]%Q) = Some m /\
    fill_age patients (patient NaN (Num 170) (Num 70))
    = Ok (Dict.set String.eqb "age"
            (Num (inject_Z (truncate (m + (1 # 2)))))
            (patient NaN (Num 170) (Num 70))).
Proof.
  refine (proj1 (fill_age_imputed patients (patient NaN (Num 170) (Num 70))
                   patients_numeric _ eq_refl) 60%Q [51%Q] eq_refl).
  intros c Hc; simpl in Hc.
  destruct Hc as [<-|[<-|[<-|[]]]]; simpl; eexists; split;
    try reflexivity; exact I.
Defined.

(** ** Rounding *)

Lemma py_round_floor (q : Q) :
  py_round q = Qfloor q \/ py_round q = Qfloor q + 1.
Proof.
  unfold py_round.
  destruct (Qcompare _ _); [destruct (Z.even _)| |]; auto.
Qed.

Lemma ceiling_floor (q : Q) : Qfloor q <= Qceiling q <= Qfloor q + 1.
Proof.
  pose proof (Qfloor_le q) as F; pose proof (Qle_ceiling q) as C.
  pose proof (Qceiling_lt q) as C'; pose proof (Qlt_floor q) as F'.
  split.
  - rewrite Zle_Qle; eapply Qle_trans; eassumption.
  - assert (inject_Z (Qceiling q - 1) < inject_Z (Qfloor q + 1))%Q as L
      by (eapply Qlt_trans; eassumption).
    rewrite <- Zlt_Qlt in L; lia.
Qed.

Lemma ceiling_near_round (q : Q) : Z.abs (Qceiling q - py_round q) <= 1.
Proof.
  pose proof (ceiling_floor q); destruct (py_round_floor q) as [-> | ->]; lia.
Qed.

(** ** train_test_split *)

Lemma take_In {A} (x : A) idxs a : In x (Sk.take idxs a) -> In x a.
Proof.
  unfold Sk.take; rewrite in_flat_map; intros (i & _ & Hx).
  destruct (nth_error a i) as [y|] eqn:E; [|destruct Hx].
  destruct Hx as [<-|[]]; eapply nth_error_In; exact E.
Qed.

Lemma take_length {A} idxs (a : list A) :
  (forall i, In i idxs -> (i < List.length a)%nat) ->
  List.length (Sk.take idxs a) = List.length idxs.
Proof.
  induction idxs as [|i idxs IH]; intros H; [reflexivity|].
  unfold Sk.take in *; cbn [flat_map]; rewrite length_app, IH
    by (intros; apply H; now right).
  destruct (nth_error a i) eqn:E; [reflexivity|].
  apply nth_error_None in E; specialize (H i (or_introl eq_refl)); lia.
Qed.

Lemma take_NoDup {A} idxs (a : list A) :
  NoDup idxs -> NoDup a -> NoDup (Sk.take idxs a).
Proof.
  intros Hi Ha; induction Hi as [|i idxs Hni Hi IH]; [constructor|].
  unfold Sk.take in *; cbn [flat_map].
  destruct (nth_error a i) as [x|] eqn:E; [|exact IH].
  simpl; constructor; [|exact IH].
  rewrite in_flat_map; intros (j & Hj & Hx).
  destruct (nth_error a j) as [y|] eqn:E'; [|destruct Hx].
  destruct Hx as [->|[]].
  assert (i = j); [|subst; contradiction].
  apply (proj1 (NoDup_nth_error a) Ha).
  - apply nth_error_Some; congruence.
  - congruence.
Qed.

Lemma firstn_In {A} (x : A) n l : In x (firstn n l) -> In x l.
Proof.
  intros H; rewrite <- (firstn_skipn n l); apply in_or_app; now left.
Qed.

Lemma firstn_NoDup {A} n (l : list A) : NoDup l -> NoDup (firstn n l).
Proof.
  intros H; rewrite <- (firstn_skipn n l) in H.
  now apply NoDup_app_remove_r in H.
Qed.

Section SplitFacts.
Variable permutation : nat -> list nat.
Hypothesis permutation_ok : forall n, Permutation (permutation n) (seq 0 n).

Lemma train_test_split_test_part {A} (a tr te : list A) :
  NoDup a ->
  Sk.train_test_split permutation a = Ok (tr, te) ->
  Z.of_nat (List.length te)
  = Qceiling ((2 # 10) * inject_Z (Z.of_nat (List.length a))) /\
  NoDup te /\ (forall x, In x te -> In x a).
Proof.
  intros Ha; unfold Sk.train_test_split.
  set (n := List.length a).
  set (k := Z.to_nat (Qceiling ((2 # 10) * inject_Z (Z.of_nat n)))).
  destruct (Nat.eqb_spec (n - k) 0) as [|Hk]; [discriminate|].
  intros H; injection H as _ <-.
  pose proof (permutation_ok n) as P.
  assert (0 <= Qceiling ((2 # 10) * inject_Z (Z.of_nat n))) as Hnn.
  { apply (Qceiling_resp_le 0).
    assert (0 <= inject_Z (Z.of_nat n))%Q
      by (change 0%Q with (inject_Z 0); rewrite <- Zle_Qle; lia).
    nra. }
  split; [|split].
  - rewrite take_length.
    + rewrite length_firstn, (Permutation_length P), length_seq.
      fold k; rewrite Nat.min_l by lia; unfold k; lia.
    + intros i Hi; apply firstn_In in Hi.
      apply (Permutation_in _ P), in_seq in Hi; fold n; lia.
  - apply take_NoDup; [|exact Ha].
    apply firstn_NoDup.
    eapply Permutation_NoDup; [symmetry; exact P | apply seq_NoDup].
  - intros x; apply take_In.
Qed.
End SplitFacts.

(** ** Values and unique() *)

Lemma value_eq_same v a b :
  value_eq v a = true -> value_eq v b = true -> same_value a b = true.
Proof.
  destruct v as [|q|s], a as [|qa|sa], b as [|qb|sb]; simpl;
    try discriminate; intros Ha Hb.
  - eapply Qeq_bool_trans; [apply Qeq_bool_sym; exact Ha | exact Hb].
  - apply String.eqb_eq in Ha, Hb; subst; apply String.eqb_refl.
Qed.

Lemma same_value_sym a b : same_value a b = true -> same_value b a = true.
Proof.
  destruct a as [|qa|sa], b as [|qb|sb]; simpl; try discriminate; auto.
  - apply Qeq_bool_sym.
  - rewrite String.eqb_sym; auto.
Qed.

Lemma unique_from_distinct seen vals :
  distinct_labels (Pd.unique_from seen vals) /\
  Forall (fun v => existsb (same_value v) seen = false)
         (Pd.unique_from seen vals).
Proof.
  revert seen; induction vals as [|v vs IH]; intros seen; simpl.
  - split; constructor.
  - destruct (existsb (same_value v) seen) eqn:E; [apply IH|].
    destruct (IH (seen ++ [v])) as (D & F); split.
    + constructor; [|exact D].
      rewrite Forall_forall in *; intros w Hw.
      specialize (F w Hw); rewrite existsb_app in F.
      apply orb_false_iff in F; destruct F as (_ & F); simpl in F.
      rewrite orb_false_r in F.
      destruct (same_value v w) eqn:S; [|reflexivity].
      apply same_value_sym in S; congruence.
    + constructor; [exact E|].
      rewrite Forall_forall in *; intros w Hw.
      specialize (F w Hw); rewrite existsb_app in F.
      now apply orb_false_iff in F.
Qed.

Lemma unique_distinct vals : distinct_labels (Pd.unique vals).
Proof. apply unique_from_distinct. Qed.

(** ** Rows under index labels *)

Section Rows.
Context {A : Type}.
Implicit Types (l : list (Z * A)) (T : list Z).

Lemma mem_Z_In z T : mem_Z z T = true <-> In z T.
Proof.
  unfold mem_Z; rewrite existsb_exists; split.
  - intros (x & Hx & E); apply Z.eqb_eq in E; now subst.
  - intros H; exists z; split; [exact H | apply Z.eqb_refl].
Qed.

Lemma loc_In T l ir : In ir (Pd.loc T l) <-> In (fst ir) T /\ In ir l.
Proof.
  unfold Pd.loc; rewrite in_flat_map; split.
  - intros (lab & Hlab & H); apply filter_In in H; destruct H as (H & E).
    apply Z.eqb_eq in E; subst; auto.
  - intros (HT & Hl); exists (fst ir); split; [exact HT|].
    apply filter_In; split; [exact Hl | apply Z.eqb_refl].
Qed.

Lemma drop_rows_In T l ir :
  In ir (Pd.drop_rows T l) <-> In ir l /\ ~ In (fst ir) T.
Proof.
  unfold Pd.drop_rows; rewrite filter_In, negb_true_iff.
  rewrite <- mem_Z_In; destruct (mem_Z (fst ir) T); intuition congruence.
Qed.

Lemma loc_app T1 T2 l : Pd.loc (T1 ++ T2) l = Pd.loc T1 l ++ Pd.loc T2 l.
Proof. apply flat_map_app. Qed.

Lemma loc_NoDup T l : NoDup T -> NoDup l -> NoDup (Pd.loc T l).
Proof.
  intros HT Hl; induction HT as [|t T Ht HT IH]; [constructor|].
  change (Pd.loc (t :: T) l)
    with (filter (fun ir => fst ir =? t) l ++ Pd.loc T l).
  apply NoDup_app; [now apply NoDup_filter | exact IH|].
  intros ir H1 H2; apply filter_In in H1; destruct H1 as (_ & E).
  apply Z.eqb_eq in E; apply loc_In in H2; destruct H2 as (H2 & _).
  subst; contradiction.
Qed.

(* drop and loc split the rows when the index labels are pairwise
   different. *)
Lemma drop_loc_partition T l :
  NoDup (map fst l) -> NoDup T ->
  Permutation (Pd.drop_rows T l ++ Pd.loc T l) l.
Proof.
  intros Hl HT; apply NoDup_map_inv in Hl.
  apply NoDup_Permutation; [|exact Hl|].
  - apply NoDup_app;
      [now apply NoDup_filter | now apply loc_NoDup|].
    intros ir H1 H2; apply drop_rows_In in H1; apply loc_In in H2.
    tauto.
  - intros ir; rewrite in_app_iff, drop_rows_In, loc_In.
    destruct (in_dec Z.eq_dec (fst ir) T); tauto.
Qed.

Lemma fst_injective l a b :
  NoDup (map fst l) -> In a l -> In b l -> fst a = fst b -> a = b.
Proof.
  induction l as [|x l IH]; simpl; intros Hn Ha Hb E; [destruct Ha|].
  inversion Hn as [|? ? Hx Hn']; subst.
  destruct Ha as [->|Ha], Hb as [->|Hb]; auto.
  - exfalso; apply Hx; rewrite E; now apply in_map.
  - exfalso; apply Hx; rewrite <- E; now apply in_map.
Qed.

Lemma filter_index_single l i :
  NoDup (map fst l) -> In i (map fst l) ->
  List.length (filter (fun ir => fst ir =? i) l) = 1%nat.
Proof.
  induction l as [|x l IH]; simpl; intros Hn Hi; [destruct Hi|].
  inversion Hn as [|? ? Hx Hn']; subst.
  destruct (Z.eqb_spec (fst x) i) as [E|N].
  - simpl; f_equal.
    assert (filter (fun ir => fst ir =? i) l = []) as ->; [|reflexivity].
    destruct (filter (fun ir => fst ir =? i) l) as [|y f] eqn:F;
      [reflexivity|].
    exfalso; assert (In y (filter (fun ir => fst ir =? i) l)) as Hy
      by (rewrite F; now left).
    apply filter_In in Hy; destruct Hy as (Hy & Ey).
    apply Z.eqb_eq in Ey; apply Hx; rewrite E, <- Ey; now apply in_map.
  - destruct Hi as [Hi|Hi]; [contradiction|]; now apply IH.
Qed.

Lemma loc_length T l :
  NoDup (map fst l) -> (forall i, In i T -> In i (map fst l)) ->
  List.length (Pd.loc T l) = List.length T.
Proof.
  intros Hn; induction T as [|t T IH]; intros HT; [reflexivity|].
  change (Pd.loc (t :: T) l)
    with (filter (fun ir => fst ir =? t) l ++ Pd.loc T l).
  rewrite length_app, filter_index_single, IH; auto.
  - intros i Hi; apply HT; now right.
  - apply HT; now left.
Qed.

Lemma index_drop_rows {B} T (l : list (Z * A)) (m : list (Z * B)) :
  map fst l = map fst m ->
  map fst (Pd.drop_rows T l) = map fst (Pd.drop_rows T m).
Proof.
  unfold Pd.drop_rows; revert m; induction l as [|x l IH];
    intros [|y m] E; simpl in *; try discriminate E; [reflexivity|].
  injection E as E1 E2; rewrite E1.
  destruct (negb (mem_Z (fst y) T)); simpl; rewrite (IH m E2), ?E1;
    reflexivity.
Qed.

Lemma index_filter {B} (p : Z -> bool) (l : list (Z * A)) (m : list (Z * B)) :
  map fst l = map fst m ->
  map fst (filter (fun ir => p (fst ir)) l)
  = map fst (filter (fun ir => p (fst ir)) m).
Proof.
  revert m; induction l as [|x l IH]; intros [|y m] E; simpl in *;
    try discriminate E; [reflexivity|].
  injection E as E1 E2; rewrite E1.
  destruct (p (fst y)); simpl; rewrite (IH m E2), ?E1; reflexivity.
Qed.

Lemma index_loc {B} T (l : list (Z * A)) (m : list (Z * B)) :
  map fst l = map fst m ->
  map fst (Pd.loc T l) = map fst (Pd.loc T m).
Proof.
  intros E; unfold Pd.loc; induction T as [|t T IH]; [reflexivity|].
  cbn [flat_map]; rewrite !map_app, IH.
  f_equal; apply (index_filter (fun i => i =? t)); exact E.
Qed.
End Rows.

(** ** train_test_split_by_category *)

Lemma label_indices_In y label i :
  In i (label_indices y label) <->
  exists v, In (i, v) y /\ value_eq v label = true.
Proof.
  unfold label_indices; rewrite in_map_iff; split.
  - intros ([j v] & <- & H); apply filter_In in H; simpl in *; eauto.
  - intros (v & H & E); exists (i, v); split; [reflexivity|].
    apply filter_In; auto.
Qed.

Lemma index_filter_NoDup {A} (p : Z * A -> bool) l :
  NoDup (map fst l) -> NoDup (map fst (filter p l)).
Proof.
  induction l as [|x l IH]; simpl; intros H; [constructor|].
  inversion H as [|? ? Hx Hl]; subst.
  destruct (p x); simpl; [|now apply IH].
  constructor; [|now apply IH].
  intros Hin; apply Hx; apply in_map_iff in Hin.
  destruct Hin as (z & E & Hz); apply filter_In in Hz.
  rewrite <- E; apply in_map; tauto.
Qed.

Lemma filter_none {A} (p : A -> bool) l :
  (forall x, In x l -> p x = false) -> filter p l = [].
Proof.
  induction l as [|x l IH]; simpl; intros H; [reflexivity|].
  rewrite (H x) by now left.
  apply IH; intros; apply H; now right.
Qed.

Lemma filter_all {A} (p : A -> bool) l :
  (forall x, In x l -> p x = true) -> filter p l = l.
Proof.
  intros H; apply forallb_filter_id, forallb_forall; exact H.
Qed.

Section SplitCore.
Variable permutation : nat -> list nat.
Hypothesis permutation_ok : forall n, Permutation (permutation n) (seq 0 n).

Lemma collect_spec y labels acc T :
  collect_test_indices permutation y labels acc = Ok T ->
  exists parts, T = acc ++ List.concat parts /\ Forall2 (drawn permutation y) labels parts.
Proof.
  revert acc; induction labels as [|label labels IH]; intros acc; simpl.
  - intros H; injection H as <-; exists []; simpl.
    rewrite app_nil_r; split; [reflexivity | constructor].
  - intros H; inv_bind H; destruct a as [tr part]; simpl in H.
    destruct (IH _ H) as (parts & -> & F).
    exists (part :: parts); split.
    + simpl; rewrite app_assoc; reflexivity.
    + constructor; [exists tr; exact Ha | exact F].
Qed.

Lemma drawn_spec y label part :
  NoDup (map fst y) -> drawn permutation y label part ->
  Z.of_nat (List.length part)
  = Qceiling ((2 # 10) * inject_Z (class_count y label)) /\
  (0 < List.length part < List.length (label_indices y label))%nat /\
  NoDup part /\
  (forall i, In i part -> In i (label_indices y label)).
Proof.
  intros Hy (tr & H).
  assert (NoDup (label_indices y label)) as Hn
    by (now apply index_filter_NoDup).
  destruct (train_test_split_test_part permutation permutation_ok _ _ _ Hn H)
    as (L & N & I).
  assert (List.length (label_indices y label)
          = List.length (filter (fun iv => value_eq (snd iv) label) y)) as Hl
    by apply length_map.
  split; [|split; [|split]]; try assumption.
  - rewrite L; unfold class_count; rewrite Hl; reflexivity.
  - unfold Sk.train_test_split in H.
    set (n := List.length (label_indices y label)) in *.
    set (k := Z.to_nat (Qceiling ((2 # 10) * inject_Z (Z.of_nat n)))) in *.
    destruct (Nat.eqb_spec (n - k) 0) as [|Hk]; [discriminate H|].
    assert (0 < Qceiling ((2 # 10) * inject_Z (Z.of_nat n))) as Hpos.
    { rewrite Zlt_Qlt.
      eapply Qlt_le_trans; [|apply Qle_ceiling].
      assert (0 < inject_Z (Z.of_nat n))%Q
        by (change 0%Q with (inject_Z 0); rewrite <- Zlt_Qlt; lia).
      change (inject_Z 0) with 0%Q; nra. }
    lia.
Qed.

Lemma drawn_rows y label part ir :
  NoDup (map fst y) -> drawn permutation y label part ->
  In ir (Pd.loc part y) -> value_eq (snd ir) label = true.
Proof.
  intros Hy D H; apply loc_In in H; destruct H as (Hp & Hir).
  destruct (drawn_spec _ _ _ Hy D) as (_ & _ & _ & I).
  apply I, label_indices_In in Hp; destruct Hp as (v & Hv & E).
  assert (ir = (fst ir, v)) as -> by (eapply fst_injective; eauto).
  exact E.
Qed.

Lemma drawn_in_index y label part i :
  NoDup (map fst y) -> drawn permutation y label part -> In i part ->
  In i (map fst y).
Proof.
  intros Hy D H; destruct (drawn_spec _ _ _ Hy D) as (_ & _ & _ & I).
  apply I, label_indices_In in H; destruct H as (v & Hv & _).
  apply in_map_iff; exists (i, v); auto.
Qed.

Lemma other_class v a b :
  same_value a b = false -> value_eq v a = true -> value_eq v b = false.
Proof.
  intros S E; destruct (value_eq v b) eqn:E'; [|reflexivity].
  rewrite (value_eq_same v a b E E') in S; discriminate S.
Qed.

Lemma other_class_sym v a b :
  same_value a b = false -> value_eq v b = true -> value_eq v a = false.
Proof.
  intros S E; destruct (value_eq v a) eqn:E'; [|reflexivity].
  rewrite (value_eq_same v a b E' E) in S; discriminate S.
Qed.

(* The rows selected by the parts of the other labels. *)
Lemma parts_rows y labels parts ir :
  NoDup (map fst y) -> Forall2 (drawn permutation y) labels parts ->
  In ir (Pd.loc (List.concat parts) y) ->
  exists label, In label labels /\ value_eq (snd ir) label = true.
Proof.
  intros Hy F; induction F as [|label part labels parts D F IH]; simpl.
  - intros [].
  - rewrite loc_app, in_app_iff; intros [H|H].
    + exists label; split; [now left | eapply drawn_rows; eauto].
    + destruct (IH H) as (l' & Hl & E); exists l'; auto.
Qed.

Lemma parts_NoDup y labels parts :
  NoDup (map fst y) -> distinct_labels labels ->
  Forall2 (drawn permutation y) labels parts ->
  NoDup (List.concat parts) /\
  (forall i, In i (List.concat parts) -> In i (map fst y)).
Proof.
  intros Hy Hd F; induction F as [|label part labels parts D F IH]; simpl.
  - split; [constructor | intros i []].
  - inversion Hd as [|? ? Hl Hd']; subst.
    destruct (IH Hd') as (N & I).
    destruct (drawn_spec _ _ _ Hy D) as (_ & _ & Np & Ip).
    split.
    + apply NoDup_app; [exact Np | exact N|].
      intros i Hi Hi'.
      apply Ip, label_indices_In in Hi; destruct Hi as (v & Hv & E).
      assert (In (i, v) (Pd.loc (List.concat parts) y)) as Hloc
        by (apply loc_In; auto).
      destruct (parts_rows _ _ _ _ Hy F Hloc) as (l' & Hl' & E').
      rewrite Forall_forall in Hl; specialize (Hl l' Hl').
      simpl in E'; rewrite (other_class _ _ _ Hl E) in E'; discriminate E'.
    + intros i Hi; apply in_app_iff in Hi; destruct Hi as [Hi|Hi];
        [eapply drawn_in_index; eauto | now apply I].
Qed.

(* In the test rows, the records of a label are those of its part. *)
Lemma parts_count y labels parts label :
  NoDup (map fst y) -> distinct_labels labels ->
  Forall2 (drawn permutation y) labels parts -> In label labels ->
  exists part, drawn permutation y label part /\
    List.length (filter (fun iv => value_eq (snd iv) label)
                        (Pd.loc (List.concat parts) y))
    = List.length part.
Proof.
  intros Hy Hd F; induction F as [|l0 part labels parts D F IH]; simpl.
  - intros [].
  - inversion Hd as [|? ? Hl Hd']; subst.
    rewrite loc_app, filter_app, length_app.
    intros [->|Hin].
    + exists part; split; [exact D|].
      rewrite filter_all by (intros; eapply drawn_rows; eauto).
      rewrite (filter_none _ (Pd.loc (List.concat parts) y)).
      * rewrite loc_length; [simpl; lia | exact Hy|].
        intros; eapply drawn_in_index; eauto.
      * intros ir Hir.
        destruct (parts_rows _ _ _ _ Hy F Hir) as (l' & Hl' & E').
        rewrite Forall_forall in Hl.
        eapply other_class_sym; [apply Hl; exact Hl' | exact E'].
    + destruct (IH Hd' Hin) as (p & Dp & Lp); exists p; split; [exact Dp|].
      rewrite filter_none; [simpl; exact Lp|].
      intros ir Hir; rewrite Forall_forall in Hl.
      eapply other_class; [apply Hl; exact Hin|].
      eapply drawn_rows; eauto.
Qed.
End SplitCore.

Lemma filter_length_perm {A} (p : A -> bool) l l' :
  Permutation l l' ->
  List.length (filter p l) = List.length (filter p l').
Proof.
  induction 1 as [|x l l' _ IH|x y l|l l' l'' _ IH1 _ IH2]; simpl.
  - reflexivity.
  - destruct (p x); simpl; now rewrite IH.
  - destruct (p x), (p y); reflexivity.
  - now rewrite IH1.
Qed.

Lemma drop_columns_index df labels X :
  Pd.drop_columns df labels = Ok X ->
  map fst (rows X) = map fst (rows df).
Proof.
  unfold Pd.drop_columns; destruct (filter _ labels); [|discriminate].
  intros H; injection H as <-; cbn [rows].
  rewrite map_map; reflexivity.
Qed.

Lemma col_index df c y : Pd.col df c = Ok y -> map fst y = map fst (rows df).
Proof.
  unfold Pd.col; destruct (mem_string c (columns df)); [|discriminate].
  intros H; injection H as <-; rewrite map_map; reflexivity.
Qed.

Section SplitTheorems.
Variable permutation : nat -> list nat.
Hypothesis permutation_ok : forall n, Permutation (permutation n) (seq 0 n).

(* The parts of a successful call. *)
Lemma split_ok df category X_train y_train X_test y_test :
  train_test_split_by_category permutation df category
  = Ok ((X_train, y_train), (X_test, y_test)) ->
  exists X y T,
    Pd.drop_columns df [category] = Ok X /\
    Pd.col df category = Ok y /\
    collect_test_indices permutation y (Pd.unique (map snd y)) [] = Ok T /\
    rows X_train = Pd.drop_rows T (rows X) /\
    rows X_test = Pd.loc T (rows X) /\
    y_train = Pd.drop_rows T y /\
    y_test = Pd.loc T y.
Proof.
  unfold train_test_split_by_category; intros H.
  inv_bind H; rename a into X, Ha into HX.
  inv_bind H; rename a into y, Ha into Hy.
  inv_bind H; rename a into T, Ha into HT.
  injection H as <- <- <- <-.
  exists X, y, T; repeat split; assumption.
Qed.

Lemma split_core df category X_train y_train X_test y_test :
  NoDup (map fst (rows df)) ->
  train_test_split_by_category permutation df category
  = Ok ((X_train, y_train), (X_test, y_test)) ->
  exists X y,
    Pd.drop_columns df [category] = Ok X /\
    Pd.col df category = Ok y /\
    Permutation (y_train ++ y_test) y /\
    Permutation (rows X_train ++ rows X_test) (rows X) /\
    (forall i, In i (map fst y_train) -> ~ In i (map fst y_test)) /\
    map fst (rows X_train) = map fst y_train /\
    map fst (rows X_test) = map fst y_test /\
    (forall label, In label (Pd.unique (map snd y)) ->
       exists part, drawn permutation y label part /\
         class_count y_test label = Z.of_nat (List.length part)).
Proof.
  intros Hdf H.
  destruct (split_ok _ _ _ _ _ _ H)
    as (X & y & T & HX & Hy & HT & -> & -> & -> & ->).
  pose proof (drop_columns_index _ _ _ HX) as IX.
  pose proof (col_index _ _ _ Hy) as Iy.
  assert (NoDup (map fst y)) as Ny by (rewrite Iy; exact Hdf).
  assert (NoDup (map fst (rows X))) as NX by (rewrite IX; exact Hdf).
  destruct (collect_spec _ _ _ _ _ HT) as (parts & HTp & F).
  simpl in HTp; subst T.
  pose proof (unique_distinct (map snd y)) as Hd.
  destruct (parts_NoDup permutation permutation_ok _ _ _ Ny Hd F)
    as (NT & IT).
  exists X, y; split; [exact HX|]. split; [exact Hy|].
  split; [now apply drop_loc_partition|].
  split; [now apply drop_loc_partition|].
  split.
  { intros i H1 H2; apply in_map_iff in H1, H2.
    destruct H1 as (a & <- & Ha), H2 as (b & E & Hb).
    apply drop_rows_In in Ha; apply loc_In in Hb.
    rewrite E in Hb; tauto. }
  split; [apply index_drop_rows; congruence|].
  split; [apply index_loc; congruence|].
  intros label Hl.
  destruct (parts_count permutation permutation_ok _ _ _ _ Ny Hd F Hl)
    as (part & D & L).
  exists part; split; [exact D|].
  unfold class_count; rewrite L; reflexivity.
Qed.
End SplitTheorems.

(** X3.  The train and test sets of train_test_split_by_category, for a table
    whose index labels are pairwise different: no index label is in both,
    together they hold every record of the input once, and the feature
    and label parts of each set carry the same index. *)
Theorem split_is_partition (permutation : nat -> list nat)
    (df : DataFrame) (category : string)
    (X_train X_test : DataFrame) (y_train y_test : Series) :
  (forall n, Permutation (permutation n) (seq 0 n)) ->
  NoDup (map fst (rows df)) ->
  train_test_split_by_category permutation df category
  = Ok ((X_train, y_train), (X_test, y_test)) ->
  exists X y,
    Pd.drop_columns df [category] = Ok X /\
    Pd.col df category = Ok y /\
    Permutation (y_train ++ y_test) y /\
    Permutation (rows X_train ++ rows X_test) (rows X) /\
    (forall i, In i (map fst y_train) -> ~ In i (map fst y_test)) /\
    map fst (rows X_train) = map fst y_train /\
    map fst (rows X_test) = map fst y_test.
Proof.
  intros Hp Hdf H.
  destruct (split_core permutation Hp _ _ _ _ _ _ Hdf H)
    as (X & y & A & B & C & D & E & F & G & _).
  exists X, y; repeat split; assumption.
Qed.

(** X4.  The test share of every class: for a table whose index labels are
    pairwise different, the test set holds ceil(0.2 n) of the n records of
    each class of the input, which differs from round(0.2 n) by at most
    one. *)
Theorem split_test_share (permutation : nat -> list nat)
    (df : DataFrame) (category : string)
    (X_train X_test : DataFrame) (y_train y_test y : Series)
    (label : value) :
  (forall n, Permutation (permutation n) (seq 0 n)) ->
  NoDup (map fst (rows df)) ->
  train_test_split_by_category permutation df category
  = Ok ((X_train, y_train), (X_test, y_test)) ->
  Pd.col df category = Ok y ->
  In label (Pd.unique (map snd y)) ->
  class_count y_test label
  = Qceiling ((2 # 10) * inject_Z (class_count y label)) /\
  Z.abs (class_count y_test label
         - py_round ((2 # 10) * inject_Z (class_count y label))) <= 1.
Proof.
  intros Hp Hdf H Hy Hl.
  destruct (split_core permutation Hp _ _ _ _ _ _ Hdf H)
    as (X & y' & _ & Hy' & _ & _ & _ & _ & _ & Hc).
  rewrite Hy in Hy'; injection Hy' as <-.
  destruct (Hc label Hl) as (part & D & ->).
  assert (NoDup (map fst y)) as Ny
    by (rewrite (col_index _ _ _ Hy); exact Hdf).
  destruct (drawn_spec permutation Hp _ _ _ Ny D) as (L & _).
  rewrite L; split; [reflexivity | apply ceiling_near_round].
Qed.

(** X5.  Every class of the input is on both sides: for a table whose index
    labels are pairwise different, when train_test_split_by_category
    returns, each class of the input has at least one record in the test
    set and at least one in the train set. *)
Theorem split_keeps_every_class (permutation : nat -> list nat)
    (df : DataFrame) (category : string)
    (X_train X_test : DataFrame) (y_train y_test y : Series)
    (label : value) :
  (forall n, Permutation (permutation n) (seq 0 n)) ->
  NoDup (map fst (rows df)) ->
  train_test_split_by_category permutation df category
  = Ok ((X_train, y_train), (X_test, y_test)) ->
  Pd.col df category = Ok y ->
  In label (Pd.unique (map snd y)) ->
  0 < class_count y_test label /\ 0 < class_count y_train label /\
  class_count y_train label + class_count y_test label
  = class_count y label.
Proof.
  intros Hp Hdf H Hy Hl.
  destruct (split_core permutation Hp _ _ _ _ _ _ Hdf H)
    as (X & y' & _ & Hy' & P & _ & _ & _ & _ & Hc).
  rewrite Hy in Hy'; injection Hy' as <-.
  destruct (Hc label Hl) as (part & D & Ht).
  assert (NoDup (map fst y)) as Ny
    by (rewrite (col_index _ _ _ Hy); exact Hdf).
  destruct (drawn_spec permutation Hp _ _ _ Ny D) as (_ & (L1 & L2) & _).
  assert (class_count y_train label + class_count y_test label
          = class_count y label) as Hsum.
  { unfold class_count.
    rewrite <- (filter_length_perm _ _ _ P), filter_app, length_app; lia. }
  assert (class_count y label
          = Z.of_nat (List.length (label_indices y label))) as Hn
    by (unfold class_count, label_indices; now rewrite length_map).
  lia.
Qed.

Lemma reversed_permutation n : Permutation (reversed n) (seq 0 n).
Proof. symmetry; apply Permutation_rev. Defined.

Lemma cohort_index_NoDup : NoDup (map fst (rows cohort)).
Proof.
  simpl; repeat (constructor; [simpl; intuition discriminate|]).
  constructor.
Defined.

Lemma split_is_partition_witness :
  exists X y,
    Pd.drop_columns cohort ["diagnosi"] = Ok X /\
    Pd.col cohort "diagnosi" = Ok y /\
    Permutation (cohort_y_train ++ cohort_y_test) y /\
    Permutation (rows cohort_X_train ++ rows cohort_X_test) (rows X) /\
    (forall i, In i (map fst cohort_y_train) ->
               ~ In i (map fst cohort_y_test)) /\
    map fst (rows cohort_X_train) = map fst cohort_y_train /\
    map fst (rows cohort_X_test) = map fst cohort_y_test.
Proof.
  exact (split_is_partition reversed cohort "diagnosi"
           cohort_X_train cohort_X_test cohort_y_train cohort_y_test
           reversed_permutation cohort_index_NoDup eq_refl).
Defined.

Lemma split_test_share_witness :
  class_count cohort_y_test (Num 0)
  = Qceiling ((2 # 10) * inject_Z (class_count cohort_y (Num 0))) /\
  Z.abs (class_count cohort_y_test (Num 0)
         - py_round ((2 # 10) * inject_Z (class_count cohort_y (Num 0))))
  <= 1.
Proof.
  refine (split_test_share reversed cohort "diagnosi"
            cohort_X_train cohort_X_test cohort_y_train cohort_y_test
            cohort_y (Num 0)
            reversed_permutation cohort_index_NoDup eq_refl eq_refl _).
  left; reflexivity.
Defined.

Lemma split_keeps_every_class_witness :
  0 < class_count cohort_y_test (Num 1) /\
  0 < class_count cohort_y_train (Num 1) /\
  class_count cohort_y_train (Num 1) + class_count cohort_y_test (Num 1)
  = class_count cohort_y (Num 1).
Proof.
  refine (split_keeps_every_class reversed cohort "diagnosi"
            cohort_X_train cohort_X_test cohort_y_train cohort_y_test
            cohort_y (Num 1)
            reversed_permutation cohort_index_NoDup eq_refl eq_refl _).
  right; left; reflexivity.
Defined.

(** ** Refusals of train_test_split_by_category *)

Lemma train_test_split_small {A} permutation (a : list A) :
  (List.length a <= 1)%nat ->
  Sk.train_test_split permutation a
  = Err (ValueError "the resulting train set will be empty").
Proof.
  destruct a as [|x [|y a]]; simpl; intros H; try lia; reflexivity.
Qed.

Lemma train_test_split_error {A} permutation (a : list A) e :
  Sk.train_test_split permutation a = Err e ->
  e = ValueError "the resulting train set will be empty".
Proof.
  unfold Sk.train_test_split; destruct (_ =? 0)%nat; [|discriminate].
  intros H; injection H as <-; reflexivity.
Qed.

Lemma collect_small_class permutation y labels acc label :
  In label labels ->
  (List.length (label_indices y label) <= 1)%nat ->
  collect_test_indices permutation y labels acc
  = Err (ValueError "the resulting train set will be empty").
Proof.
  revert acc; induction labels as [|l0 labels IH]; intros acc Hin Hlen;
    [destruct Hin|].
  cbn [collect_test_indices].
  destruct (Sk.train_test_split permutation (label_indices y l0))
    as [parts|e] eqn:E.
  - destruct Hin as [->|Hin].
    + rewrite train_test_split_small in E by exact Hlen; discriminate E.
    + cbn [bind]; now apply IH.
  - apply train_test_split_error in E; subst; reflexivity.
Qed.

(** X6.  train_test_split_by_category raises ValueError, and returns no
    split, whenever the target column has a class with at most one
    record: the split of that class would leave its train part empty. *)
Theorem split_refuses_small_class (permutation : nat -> list nat)
    (df : DataFrame) (category : string) (y : Series) (label : value) :
  In category (columns df) ->
  Pd.col df category = Ok y ->
  In label (Pd.unique (map snd y)) ->
  class_count y label <= 1 ->
  train_test_split_by_category permutation df category
  = Err (ValueError "the resulting train set will be empty").
Proof.
  intros Hc Hy Hl Hn.
  unfold train_test_split_by_category, Pd.drop_columns.
  cbn [filter].
  assert (mem_string category (columns df) = true) as ->
    by now apply mem_string_In.
  cbn [negb bind]; rewrite Hy; cbn [bind].
  erewrite collect_small_class; [reflexivity | exact Hl|].
  unfold class_count in Hn; unfold label_indices; rewrite length_map; lia.
Qed.

Lemma split_refuses_small_class_witness :
  train_test_split_by_category reversed cohort_single "diagnosi"
  = Err (ValueError "the resulting train set will be empty").
Proof.
  refine (split_refuses_small_class reversed cohort_single "diagnosi"
            [(0, Num 0); (1, Num 1); (2, Num 0)] (Num 1) _ eq_refl _ _).
  - right; left; reflexivity.
  - right; left; reflexivity.
  - vm_compute; discriminate.
Defined.

Lemma unique_from_NaN seen vals :
  existsb (same_value NaN) seen = false -> In NaN vals ->
  In NaN (Pd.unique_from seen vals).
Proof.
  revert seen; induction vals as [|v vs IH]; intros seen Hs Hin;
    [destruct Hin|].
  cbn [Pd.unique_from].
  destruct v as [|q|s].
  - rewrite Hs; now left.
  - destruct Hin as [E|Hin]; [discriminate E|].
    destruct (existsb (same_value (Num q)) seen); [now apply IH|].
    right; apply IH; [|exact Hin].
    rewrite existsb_app, Hs; reflexivity.
  - destruct Hin as [E|Hin]; [discriminate E|].
    destruct (existsb (same_value (Str s)) seen); [now apply IH|].
    right; apply IH; [|exact Hin].
    rewrite existsb_app, Hs; reflexivity.
Qed.

Lemma class_count_NaN y : class_count y NaN = 0.
Proof.
  unfold class_count; rewrite filter_none; [reflexivity|].
  intros [i v] _; destruct v; reflexivity.
Qed.

(** X7.  train_test_split_by_category raises ValueError whenever a record
    of the table has a missing value in the target column: the missing
    value is one of the labels of unique(), no record compares equal to
    it, and the split of its empty index list is refused. *)
Theorem split_refuses_missing_label (permutation : nat -> list nat)
    (df : DataFrame) (category : string) (y : Series) :
  In category (columns df) ->
  Pd.col df category = Ok y ->
  In NaN (map snd y) ->
  train_test_split_by_category permutation df category
  = Err (ValueError "the resulting train set will be empty").
Proof.
  intros Hc Hy Hnan.
  unfold train_test_split_by_category, Pd.drop_columns.
  cbn [filter].
  assert (mem_string category (columns df) = true) as ->
    by now apply mem_string_In.
  cbn [negb bind]; rewrite Hy; cbn [bind].
  erewrite (collect_small_class permutation y _ [] NaN); [reflexivity| |].
  - now apply unique_from_NaN.
  - pose proof (class_count_NaN y) as Hn.
    unfold class_count in Hn; unfold label_indices; rewrite length_map; lia.
Qed.

Lemma split_refuses_missing_label_witness :
  train_test_split_by_category reversed cohort_unlabelled "diagnosi"
  = Err (ValueError "the resulting train set will be empty").
Proof.
  refine (split_refuses_missing_label reversed cohort_unlabelled "diagnosi"
            [(0, Num 0); (1, NaN); (2, Num 0)] _ eq_refl _).
  - right; left; reflexivity.
  - right; left; reflexivity.
Defined.

(** ** fill_age keeps the rest of the record *)

(* The two outcomes of fill_age: a known age is kept, a missing one is
   replaced by an integer. *)
Lemma fill_age_cases (df : DataFrame) (row row' : Row) :
  fill_age df row = Ok row' ->
  (exists q, Dict.get String.eqb "age" row = Some (Num q) /\ row' = row) \/
  (exists z, Dict.get String.eqb "age" row = Some NaN /\
             row' = Dict.set String.eqb "age" (Num (inject_Z z)) row).
Proof.
  unfold fill_age; intros H.
  inv_bind H; rename a into age, Ha into Hage.
  unfold Pd.row_float, Pd.row_get in Hage.
  destruct (Dict.get String.eqb "age" row) as [v|] eqn:Hv;
    [|discriminate Hage].
  cbn [bind] in Hage.
  destruct age as [q|]; cbn [isnan] in H.
  - injection H as <-; left; exists q; split; [|reflexivity].
    destruct v; simpl in Hage; try discriminate Hage.
    now injection Hage as ->.
  - right.
    assert (v = NaN) as -> by (destruct v; simpl in Hage;
                               try discriminate Hage; reflexivity).
    inv_bind H. inv_bind H. inv_bind H. inv_bind H. inv_bind H.
    destruct (0 <? List.length _)%nat; inv_bind H; injection H as <-;
      eauto.
Qed.

(** X8.  Whenever fill_age returns, the record it returns has a known age,
    has the fields of the record it was given in the same order, and holds
    in every field other than age the value it was given. *)
Theorem fill_age_fills_only_age (df : DataFrame) (row row' : Row) :
  fill_age df row = Ok row' ->
  (exists a, known "age" row' = Some a) /\
  map fst row' = map fst row /\
  (forall c, c <> "age" ->
             Dict.get String.eqb c row' = Dict.get String.eqb c row).
Proof.
  intros H; destruct (fill_age_cases _ _ _ H)
    as [(q & Hq & ->)|(z & Hz & ->)].
  - split; [|split; reflexivity].
    exists q; unfold known, Pd.cell; now rewrite Hq.
  - split; [|split].
    + exists (inject_Z z); unfold known, Pd.cell.
      rewrite dict_get_set_same; reflexivity.
    + eapply dict_set_keys; exact Hz.
    + intros c Hc; now apply dict_get_set_other.
Qed.

Lemma fill_age_fills_only_age_witness :
  (exists a,
     known "age"
       [("age", Num (inject_Z 56)); ("height", Num 170); ("weight", Num 70);
        ("sex", Num 1)] = Some a) /\
  map fst [("age", Num (inject_Z 56)); ("height", Num 170);
           ("weight", Num 70); ("sex", Num 1)]
  = map fst (patient NaN (Num 170) (Num 70)) /\
  (forall c, c <> "age" ->
     Dict.get String.eqb c
       [("age", Num (inject_Z 56)); ("height", Num 170); ("weight", Num 70);
        ("sex", Num 1)]
     = Dict.get String.eqb c (patient NaN (Num 170) (Num 70))).
Proof.
  exact (fill_age_fills_only_age patients (patient NaN (Num 170) (Num 70))
           _ eq_refl).
Defined.

(** ** The heat map of the confusion matrix *)

Lemma combine_snoc {A B} (l : list A) (m : list B) a b :
  List.length l = List.length m ->
  combine (l ++ [a]) (m ++ [b]) = combine l m ++ [(a, b)].
Proof.
  revert m; induction l as [|x l IH]; intros [|y m] E; simpl in *;
    try discriminate E; [reflexivity|].
  rewrite IH by lia; reflexivity.
Qed.

Lemma combine_reversed {A B} (l : list A) (m : list B) :
  List.length l = List.length m ->
  combine (rev l) (rev m) = rev (combine l m).
Proof.
  revert m; induction l as [|x l IH]; intros [|y m] E; simpl in *;
    try discriminate E; [reflexivity|].
  rewrite combine_snoc, IH by (rewrite ?length_rev; lia); reflexivity.
Qed.

(** X9.  For a confusion matrix with one row per label of CM_LABELS,
    create_confusion_matrix keeps every row with its label: the rows of
    the heat map paired with its vertical axis labels are the rows of the
    matrix paired with CM_LABELS, in reverse order, and the horizontal
    axis is CM_LABELS itself. *)
Theorem heatmap_rows_keep_labels (cm : list (list Z)) :
  List.length cm = List.length CM_LABELS ->
  combine (hm_y (create_confusion_matrix cm))
          (hm_z (create_confusion_matrix cm))
  = rev (combine CM_LABELS cm) /\
  hm_x (create_confusion_matrix cm) = CM_LABELS /\
  List.length (hm_z (create_confusion_matrix cm)) = 10%nat.
Proof.
  intros H; unfold create_confusion_matrix; cbn [hm_x hm_y hm_z].
  split; [|split].
  - apply combine_reversed; symmetry; exact H.
  - reflexivity.
  - rewrite length_rev, H; reflexivity.
Qed.

Lemma heatmap_rows_keep_labels_witness :
  combine (hm_y (create_confusion_matrix identity_matrix))
          (hm_z (create_confusion_matrix identity_matrix))
  = rev (combine CM_LABELS identity_matrix) /\
  hm_x (create_confusion_matrix identity_matrix) = CM_LABELS /\
  List.length (hm_z (create_confusion_matrix identity_matrix)) = 10%nat.
Proof.
  exact (heatmap_rows_keep_labels identity_matrix eq_refl).
Defined.

(** ** train and labels that are no class codes *)

(** X10.  train raises ValueError as soon as y_train holds a negative
    label: no estimator is fitted and the caller's search grid is left as
    it was passed. *)
Theorem train_refuses_negative_labels (Features Model : Type)
    (fit : params -> Features -> list Z -> result Model)
    (search : grid -> Features -> list Z -> result params)
    (X : Features) (y : list Z) (param_grid : option grid) (v : Z) :
  In v y -> v < 0 ->
  train fit search X y param_grid
  = (param_grid,
     Err (ValueError "'list' argument must have no negative elements")).
Proof.
  intros Hin Hneg.
  assert (existsb (fun v => v <? 0) y = true) as E.
  { apply existsb_exists; exists v; split; [exact Hin|].
    now apply Z.ltb_lt. }
  unfold train, class_weight, Np.bincount; rewrite E; reflexivity.
Qed.

Lemma train_refuses_negative_labels_witness :
  train (fun _ _ _ => Ok tt) (fun _ _ _ => Ok []) tt y_negative
        (Some grid_balanced)
  = (Some grid_balanced,
     Err (ValueError "'list' argument must have no negative elements")).
Proof.
  refine (train_refuses_negative_labels unit unit _ _ tt y_negative
            (Some grid_balanced) (-1) _ _).
  - right; left; reflexivity.
  - lia.
Defined.

(** ** create_report_table and the caller's report *)

Lemma dict_get_In {V} (k : string) (v : V) d :
  Dict.get String.eqb k d = Some v -> In (k, v) d.
Proof.
  induction d as [|[k' v'] d IH]; simpl; [discriminate|].
  destruct (String.eqb_spec k k') as [->|N].
  - intros H; injection H as ->; now left.
  - intros H; right; now apply IH.
Qed.

Lemma dict_get_None {V} (k : string) (d : list (string * V)) :
  Dict.get String.eqb k d = None <-> ~ In k (map fst d).
Proof.
  induction d as [|[k' v'] d IH]; simpl; [tauto|].
  destruct (String.eqb_spec k k') as [->|N].
  - split; [discriminate | intros H; exfalso; apply H; now left].
  - rewrite IH; split; [intros H [E|I]; [congruence | auto] | tauto].
Qed.

(* Popping a key of a dictionary leaves the entries of the other keys. *)
Lemma dict_remove_filter {V} (k : string) (d : list (string * V)) :
  NoDup (map fst d) ->
  Dict.remove String.eqb k d
  = filter (fun kv => negb (String.eqb k (fst kv))) d.
Proof.
  induction d as [|[k' v'] d IH]; simpl; intros H; [reflexivity|].
  inversion H as [|? ? Hk Hd]; subst.
  destruct (String.eqb_spec k k') as [->|N]; simpl.
  - symmetry; apply filter_all; intros [k0 v0] Hin; simpl.
    destruct (String.eqb_spec k' k0) as [->|]; [|reflexivity].
    exfalso; apply Hk; apply in_map_iff; exists (k0, v0); auto.
  - now rewrite IH.
Qed.

Lemma filter_filter {A} (p q : A -> bool) l :
  filter p (filter q l) = filter (fun x => andb (q x) (p x)) l.
Proof.
  induction l as [|x l IH]; simpl; [reflexivity|].
  destruct (q x); simpl; [destruct (p x)|]; now rewrite IH.
Qed.

Lemma filter_keys_NoDup {V} (p : string * V -> bool) d :
  NoDup (map fst d) -> NoDup (map fst (filter p d)).
Proof.
  induction d as [|x d IH]; simpl; intros H; [constructor|].
  inversion H as [|? ? Hx Hd]; subst.
  destruct (p x); simpl; [|now apply IH].
  constructor; [|now apply IH].
  intros Hin; apply Hx; apply in_map_iff in Hin.
  destruct Hin as (z & E & Hz); apply filter_In in Hz.
  rewrite <- E; apply in_map; tauto.
Qed.

Lemma mapM_length {A B} (f : A -> result B) l bs :
  mapM f l = Ok bs -> List.length bs = List.length l.
Proof.
  revert bs; induction l as [|a l IH]; simpl; intros bs H.
  - injection H as <-; reflexivity.
  - inv_bind H; inv_bind H; injection H as <-; simpl.
    now rewrite (IH _ Ha0).
Qed.

(* The report and the rows on a successful call. *)
Lemma report_rows_ok report r' rows :
  NoDup (map fst report) ->
  report_rows report = Ok (r', rows) ->
  r' = filter (fun kv => negb (is_aggregate kv)) report /\
  List.length rows = (List.length r' + 3)%nat.
Proof.
  intros Hn; unfold report_rows, pop.
  destruct (Dict.get String.eqb "accuracy" report) as [acc|];
    [|discriminate]; cbn [bind fst snd].
  destruct (Dict.get String.eqb "macro avg" _) as [mac|];
    [|discriminate]; cbn [bind fst snd].
  destruct (Dict.get String.eqb "weighted avg" _) as [wei|];
    [|discriminate]; cbn [bind fst snd].
  intros H; inv_bind H; rename a into class_rows, Ha into Hrows.
  inv_bind H; inv_bind H.
  destruct acc as [q|m]; [|discriminate H].
  injection H as <- <-.
  assert (Dict.remove String.eqb "weighted avg"
            (Dict.remove String.eqb "macro avg"
               (Dict.remove String.eqb "accuracy" report))
          = filter (fun kv => negb (is_aggregate kv)) report) as E.
  { rewrite (dict_remove_filter "accuracy" report Hn).
    rewrite (dict_remove_filter "macro avg")
      by now apply filter_keys_NoDup.
    rewrite (dict_remove_filter "weighted avg")
      by (now apply filter_keys_NoDup, filter_keys_NoDup).
    rewrite !filter_filter; apply filter_ext; intros [k v].
    unfold is_aggregate, mem_string, aggregate_keys; cbn [existsb fst].
    rewrite (String.eqb_sym k "accuracy"), (String.eqb_sym k "macro avg"),
            (String.eqb_sym k "weighted avg").
    destruct (String.eqb "accuracy" k), (String.eqb "macro avg" k),
             (String.eqb "weighted avg" k); reflexivity. }
  split; [exact E|].
  rewrite !length_app, (mapM_length _ _ _ Hrows); simpl; lia.
Qed.

(** X11.  On return from create_report_table the caller's report holds
    its entries other than "accuracy", "macro avg" and "weighted avg", in
    their order, the three having been popped, and the table has the five
    header columns and, before transposition, one row per remaining entry
    and three more for the averages and the accuracy. *)
Theorem create_report_table_pops_aggregates
    (report r' : Report) (table : Table) :
  NoDup (map fst report) ->
  create_report_table report = Ok (r', table) ->
  r' = filter (fun kv => negb (is_aggregate kv)) report /\
  header table = table_columns /\
  exists rows,
    report_rows report = Ok (r', rows) /\
    cells table = zip_star (TText "") rows /\
    List.length rows = (List.length r' + 3)%nat.
Proof.
  intros Hn; unfold create_report_table; intros H.
  inv_bind H; destruct a as [r0 rows]; injection H as <- <-.
  destruct (report_rows_ok _ _ _ Hn Ha) as (E & L).
  split; [exact E|]. split; [reflexivity|].
  exists rows; cbn [fst snd cells]; auto.
Qed.

Lemma report_two_classes_keys : NoDup (map fst report_two_classes).
Proof.
  simpl; repeat (constructor; [simpl; intuition discriminate|]).
  constructor.
Defined.

Lemma create_report_table_pops_aggregates_witness :
  exists r' table,
    create_report_table report_two_classes = Ok (r', table) /\
    r' = filter (fun kv => negb (is_aggregate kv)) report_two_classes /\
    header table = table_columns /\
    exists rows,
      report_rows report_two_classes = Ok (r', rows) /\
      cells table = zip_star (TText "") rows /\
      List.length rows = (List.length r' + 3)%nat.
Proof.
  destruct (create_report_table report_two_classes) as [[r' table]|e] eqn:E;
    [|vm_compute in E; discriminate E].
  exists r', table; split; [reflexivity|].
  exact (create_report_table_pops_aggregates report_two_classes r' table
           report_two_classes_keys E).
Defined.

(** X12.  create_report_table cannot be applied twice to one report: when
    a call returns, a second call on the report as the first one left it
    raises KeyError for "accuracy". *)
Theorem create_report_table_not_repeatable
    (report r' : Report) (table : Table) :
  NoDup (map fst report) ->
  create_report_table report = Ok (r', table) ->
  create_report_table r' = Err (KeyError ["accuracy"]).
Proof.
  intros Hn H; unfold create_report_table in H.
  inv_bind H; destruct a as [r0 rows]; injection H as <- _.
  destruct (report_rows_ok _ _ _ Hn Ha) as (E & _); cbn [fst] in *.
  assert (Dict.get String.eqb "accuracy" r0 = None) as G.
  { apply dict_get_None; rewrite E; intros Hin.
    apply in_map_iff in Hin; destruct Hin as ([k v] & Hk & Hf).
    apply filter_In in Hf; destruct Hf as (_ & Hf); simpl in Hk; subst k.
    discriminate Hf. }
  unfold create_report_table, report_rows, pop; rewrite G; reflexivity.
Qed.

Lemma create_report_table_not_repeatable_witness :
  exists r' table,
    create_report_table report_two_classes = Ok (r', table) /\
    create_report_table r' = Err (KeyError ["accuracy"]).
Proof.
  destruct (create_report_table report_two_classes) as [[r' table]|e] eqn:E;
    [|vm_compute in E; discriminate E].
  exists r', table; split; [reflexivity|].
  exact (create_report_table_not_repeatable report_two_classes r' table
           report_two_classes_keys E).
Defined.

(** ** relabel: class codes to readable names *)

Lemma dict_get_app_notin {V} (k : string) (a b : list (string * V)) :
  ~ In k (map fst a) ->
  Dict.get String.eqb k (a ++ b) = Dict.get String.eqb k b.
Proof.
  induction a as [|[k' v'] a IH]; simpl; intros H; [reflexivity|].
  destruct (String.eqb_spec k k') as [->|N]; [exfalso; auto|].
  apply IH; tauto.
Qed.

Lemma dict_remove_app_notin {V} (k : string) (a b : list (string * V)) :
  ~ In k (map fst a) ->
  Dict.remove String.eqb k (a ++ b) = a ++ Dict.remove String.eqb k b.
Proof.
  induction a as [|[k' v'] a IH]; simpl; intros H; [reflexivity|].
  destruct (String.eqb_spec k k') as [->|N]; [exfalso; auto|].
  rewrite IH by tauto; reflexivity.
Qed.

Lemma dict_set_fresh {V} (k : string) (v : V) (d : list (string * V)) :
  ~ In k (map fst d) -> Dict.set String.eqb k v d = d ++ [(k, v)].
Proof.
  induction d as [|[k' v'] d IH]; simpl; intros H; [reflexivity|].
  destruct (String.eqb_spec k k') as [->|N]; [exfalso; auto|].
  rewrite IH by tauto; reflexivity.
Qed.

Lemma LABELS_names_NoDup : NoDup (map snd LABELS).
Proof.
  simpl.
  repeat (constructor;
          [simpl; intros H;
           repeat (destruct H as [H|H];
                   [apply String.eqb_eq in H; vm_compute in H;
                    discriminate H|]);
           exact H|]).
  constructor.
Qed.

Lemma snd_injective {A B} (l : list (A * B)) a b :
  NoDup (map snd l) -> In a l -> In b l -> snd a = snd b -> a = b.
Proof.
  induction l as [|x l IH]; simpl; intros Hn Ha Hb E; [destruct Ha|].
  inversion Hn as [|? ? Hx Hn']; subst.
  destruct Ha as [->|Ha], Hb as [->|Hb]; auto.
  - exfalso; apply Hx; rewrite E; now apply in_map.
  - exfalso; apply Hx; rewrite <- E; now apply in_map.
Qed.

Lemma LABELS_injective k k' name :
  Dict.get String.eqb k LABELS = Some name ->
  Dict.get String.eqb k' LABELS = Some name -> k = k'.
Proof.
  intros H H'; apply dict_get_In in H, H'.
  pose proof (snd_injective LABELS (k, name) (k', name)
                LABELS_names_NoDup H H' eq_refl) as E.
  now injection E.
Qed.

Lemma unnamed_keys l k :
  In k (map fst (unnamed_entries l)) -> In k (map fst l).
Proof.
  unfold unnamed_entries; rewrite !in_map_iff; intros (x & E & H).
  apply filter_In in H; exists x; tauto.
Qed.

Lemma named_keys l name :
  In name (map fst (named_entries l)) ->
  exists k, In k (map fst l) /\
            Dict.get String.eqb k LABELS = Some name.
Proof.
  unfold named_entries; rewrite map_map, in_map_iff.
  intros ([k v] & E & H); apply filter_In in H; destruct H as (H & L).
  unfold has_label, Dict.mem in L; unfold readable in E; cbn [fst snd] in *.
  destruct (Dict.get String.eqb k LABELS) as [n|] eqn:G; [|discriminate L].
  subst n; exists k; split; [|exact G].
  apply in_map_iff; exists (k, v); auto.
Qed.

Lemma entries_snoc_named P k v name :
  Dict.get String.eqb k LABELS = Some name ->
  unnamed_entries (P ++ [(k, v)]) = unnamed_entries P /\
  named_entries (P ++ [(k, v)]) = named_entries P ++ [(name, v)].
Proof.
  intros HL; unfold unnamed_entries, named_entries.
  assert (has_label (k, v) = true) as E
    by (unfold has_label, Dict.mem; cbn [fst]; now rewrite HL).
  assert (readable (k, v) = (name, v)) as R
    by (unfold readable; cbn [fst snd]; now rewrite HL).
  rewrite !filter_app, map_app; cbn [filter]; rewrite E.
  cbn [negb map]; rewrite R, app_nil_r; split; reflexivity.
Qed.

Lemma entries_snoc_unnamed P k v :
  Dict.get String.eqb k LABELS = None ->
  unnamed_entries (P ++ [(k, v)]) = unnamed_entries P ++ [(k, v)] /\
  named_entries (P ++ [(k, v)]) = named_entries P.
Proof.
  intros HL; unfold unnamed_entries, named_entries.
  assert (has_label (k, v) = false) as E
    by (unfold has_label, Dict.mem; cbn [fst]; now rewrite HL).
  rewrite !filter_app, map_app; cbn [filter]; rewrite E.
  cbn [negb map]; rewrite app_nil_r; split; reflexivity.
Qed.

(* The state of the loop of create_reports after the keys of P. *)
Lemma relabel_fold (P S : Report) :
  NoDup (map fst (P ++ S)) ->
  (forall k name, In k (map fst (P ++ S)) -> In name (map snd LABELS) ->
                  k <> name) ->
  fold_left
    (fun rep k =>
       match Dict.get String.eqb k LABELS, Dict.get String.eqb k rep with
       | Some name, Some v =>
           Dict.set String.eqb name v (Dict.remove String.eqb k rep)
       | _, _ => rep
       end)
    (map fst S) (unnamed_entries P ++ S ++ named_entries P)
  = unnamed_entries (P ++ S) ++ named_entries (P ++ S).
Proof.
  revert P; induction S as [|[k v] S IH]; intros P Hn Hf.
  - simpl; rewrite !app_nil_r; reflexivity.
  - assert (~ In k (map fst P)) as HkP.
    { rewrite map_app in Hn; simpl in Hn.
      apply NoDup_remove_2 in Hn; intros H; apply Hn, in_or_app; now left. }
    assert (~ In k (map fst (unnamed_entries P))) as HkK
      by (intros H; apply HkP; now apply unnamed_keys).
    specialize (IH (P ++ [(k, v)])).
    rewrite <- !app_assoc in IH; cbn [app] in IH.
    specialize (IH Hn Hf).
    cbn [map fst fold_left]; rewrite <- IH; f_equal.
    destruct (Dict.get String.eqb k LABELS) as [name|] eqn:HL.
    + destruct (entries_snoc_named P k v name HL) as (-> & ->).
      rewrite dict_get_app_notin by exact HkK.
      cbn [app Dict.get]; rewrite String.eqb_refl.
      rewrite dict_remove_app_notin by exact HkK.
      cbn [app Dict.remove]; rewrite String.eqb_refl.
      rewrite dict_set_fresh; [rewrite <- !app_assoc; reflexivity|].
      assert (In name (map snd LABELS)) as Hname
        by (apply dict_get_In in HL; apply in_map_iff;
            exists (k, name); auto).
      rewrite !map_app, !in_app_iff; intros [H|[H|H]].
      * apply unnamed_keys in H.
        apply (Hf name name); [|exact Hname | reflexivity].
        rewrite map_app; apply in_or_app; now left.
      * apply (Hf name name); [|exact Hname | reflexivity].
        rewrite map_app; apply in_or_app; right; now right.
      * apply named_keys in H; destruct H as (k' & Hk' & HL').
        rewrite (LABELS_injective _ _ _ HL HL') in HkP; contradiction.
    + destruct (entries_snoc_unnamed P k v HL) as (-> & ->).
      rewrite <- !app_assoc; reflexivity.
Qed.

(** X13.  For a report whose keys are pairwise different and none of which
    is already a readable name, the renaming done by create_reports keeps
    the entries whose key has no readable name where they are, and moves
    the entries of the class codes that have one behind them, in their
    order, each under its readable name and with its values unchanged. *)
Theorem relabel_closed_form (report : Report) :
  NoDup (map fst report) ->
  (forall k name, In k (map fst report) -> In name (map snd LABELS) ->
                  k <> name) ->
  relabel report = unnamed_entries report ++ named_entries report.
Proof.
  intros Hn Hf.
  pose proof (relabel_fold [] report Hn Hf) as H.
  cbn [app] in H; unfold unnamed_entries at 1, named_entries at 1 in H.
  cbn [filter map app] in H; rewrite app_nil_r in H.
  exact H.
Qed.

Lemma report_two_classes_fresh k name :
  In k (map fst report_two_classes) -> In name (map snd LABELS) ->
  k <> name.
Proof.
  intros Hk Hn E; subst name; simpl in Hk.
  repeat (destruct Hk as [Hk|Hk];
          [subst k; simpl in Hn;
           repeat (destruct Hn as [Hn|Hn];
                   [apply String.eqb_eq in Hn; vm_compute in Hn;
                    discriminate Hn|]);
           exact Hn|]).
  exact Hk.
Defined.

Lemma relabel_closed_form_witness :
  relabel report_two_classes
  = unnamed_entries report_two_classes ++ named_entries report_two_classes.
Proof.
  exact (relabel_closed_form report_two_classes report_two_classes_keys
           report_two_classes_fresh).
Defined.

(** ** The labels of the confusion matrix *)





(** ** The encodings of format_df *)

Lemma set_col_rows df c vals ir :
  In ir (rows (Pd.set_col df c vals)) ->
  exists r v, In (fst ir, r) (rows df) /\ In v vals /\
              snd ir = Dict.set String.eqb c v r.
Proof.
  unfold Pd.set_col; cbn [rows]; rewrite in_map_iff.
  intros ([[i r] v] & <- & H); cbn [fst snd].
  exists r, v; split; [eapply in_combine_l; exact H|].
  split; [eapply in_combine_r; exact H | reflexivity].
Qed.

Lemma cell_set_same c v r : Pd.cell c (Dict.set String.eqb c v r) = v.
Proof. unfold Pd.cell; now rewrite dict_get_set_same. Qed.

Lemma cell_set_other c c' v r :
  c' <> c -> Pd.cell c' (Dict.set String.eqb c v r) = Pd.cell c' r.
Proof. intros N; unfold Pd.cell; now rewrite dict_get_set_other. Qed.

Lemma set_col_column_in (P : value -> Prop) df c vals :
  Forall P vals -> column_in P c (Pd.set_col df c vals).
Proof.
  intros F ir Hir; destruct (set_col_rows _ _ _ _ Hir) as (r & v & _ & Hv & ->).
  rewrite cell_set_same; rewrite Forall_forall in F; auto.
Qed.

Lemma set_col_column_other (P : value -> Prop) df c c' vals :
  c' <> c -> column_in P c' df -> column_in P c' (Pd.set_col df c vals).
Proof.
  intros N H ir Hir.
  destruct (set_col_rows _ _ _ _ Hir) as (r & v & Hr & _ & ->).
  rewrite cell_set_other by exact N; exact (H _ Hr).
Qed.

Lemma set_col_length df c vals :
  List.length vals = List.length (rows df) ->
  List.length (rows (Pd.set_col df c vals)) = List.length (rows df).
Proof.
  intros E; unfold Pd.set_col; cbn [rows].
  rewrite length_map, length_combine, E; apply Nat.min_id.
Qed.

Lemma col_length df c s :
  Pd.col df c = Ok s -> List.length (map snd s) = List.length (rows df).
Proof.
  unfold Pd.col; destruct (mem_string c (columns df)); [|discriminate].
  intros H; injection H as <-; now rewrite !length_map.
Qed.

Lemma same_value_refl v : same_value v v = true.
Proof.
  destruct v; simpl; [reflexivity | apply Qeq_bool_refl | apply String.eqb_refl].
Qed.

(* Every value of a column is one of its distinct values. *)
Lemma unique_from_complete seen vals v :
  In v vals ->
  existsb (same_value v) seen = true \/
  existsb (same_value v) (Pd.unique_from seen vals) = true.
Proof.
  revert seen; induction vals as [|x vs IH]; intros seen Hin;
    [destruct Hin|].
  cbn [Pd.unique_from].
  destruct (existsb (same_value x) seen) eqn:E.
  - destruct Hin as [->|Hin]; [now left | now apply IH].
  - cbn [existsb]; destruct Hin as [->|Hin].
    + right; now rewrite same_value_refl.
    + destruct (IH (seen ++ [x]) Hin) as [H|H].
      * rewrite existsb_app in H; cbn [existsb] in H.
        rewrite orb_false_r in H.
        apply orb_true_iff in H; destruct H as [H|H];
          [now left | right; now rewrite H].
      * right; rewrite H; apply orb_true_r.
Qed.

Lemma unique_from_length seen vals :
  (List.length (Pd.unique_from seen vals) <= List.length vals)%nat.
Proof.
  revert seen; induction vals as [|x vs IH]; intros seen; simpl; [lia|].
  destruct (existsb (same_value x) seen); simpl;
    [specialize (IH seen) | specialize (IH (seen ++ [x]))]; lia.
Qed.

Lemma map_dict_values (d : list (value * value)) vals (P : value -> Prop) :
  (forall v, In v vals -> existsb (same_value v) (map fst d) = true) ->
  Forall P (map snd d) ->
  Forall P (Pd.map_dict d vals).
Proof.
  intros Hk Hd; unfold Pd.map_dict; apply Forall_forall.
  intros w Hw; apply in_map_iff in Hw; destruct Hw as (v & <- & Hv).
  specialize (Hk v Hv); clear Hv.
  induction d as [|[k x] d IH]; simpl in *; [discriminate Hk|].
  apply Forall_cons_iff in Hd; destruct Hd as (Hx & Hd).
  destruct (same_value v k); [exact Hx | now apply IH].
Qed.

Lemma enumerate_from_bounds {A} (s : Z) (l : list A) i a :
  In (i, a) (enumerate_from s l) ->
  s <= i < s + Z.of_nat (List.length l).
Proof.
  revert s; induction l as [|x l IH]; intros s; simpl; [intros []|].
  intros [E|H]; [injection E as <- _; lia|].
  specialize (IH _ H); lia.
Qed.

Lemma enumerate_from_values {A} (s : Z) (l : list A) :
  map snd (enumerate_from s l) = l.
Proof.
  revert s; induction l as [|x l IH]; intros s; simpl;
    [reflexivity | now rewrite IH].
Qed.

Lemma DIAGNOSI_MAP_codes s i :
  Dict.get String.eqb s DIAGNOSI_MAP = Some i -> 0 <= i <= 9.
Proof.
  intros H; apply dict_get_In in H; simpl in H.
  repeat (destruct H as [H|H]; [injection H as _ <-; lia|]).
  destruct H.
Qed.

Lemma diagnosis_code_map (v : value) :
  diagnosis_code
    match v with
    | Str s =>
        match Dict.get String.eqb s DIAGNOSI_MAP with
        | Some i => Num (inject_Z i)
        | None => NaN
        end
    | _ => NaN
    end.
Proof.
  destruct v as [|q|s]; [now left | now left|].
  destruct (Dict.get String.eqb s DIAGNOSI_MAP) as [i|] eqn:E;
    [|now left].
  right; exists i; split; [reflexivity|].
  eapply DIAGNOSI_MAP_codes; exact E.
Qed.

(** X15.  In every record of the table format_df returns, the heart axis
    is an integer code from 0 up to, but not including, the number of
    records, the pacemaker field is 0 or 1, and the diagnosis is missing
    or an integer code from 0 to 9. *)
Theorem format_df_encodes
    (groupby_fill_mean :
       DataFrame -> list float -> list string -> string
       -> result (list value))
    (df out : DataFrame) :
  format_df groupby_fill_mean df = Ok out ->
  column_in (axis_code (List.length (rows out))) "heart_axis" out /\
  column_in pacemaker_flag "pacemaker" out /\
  column_in diagnosis_code "diagnosi" out.
Proof.
  unfold format_df; intros H.
  inv_bind H; rename a into df1, Ha into H1.
  inv_bind H; rename a into df2, Ha into H2.
  inv_bind H; rename a into ha, Ha into Hha.
  inv_bind H; rename a into pm, Ha into Hpm.
  inv_bind H; rename a into ha0, Ha into Hha0.
  inv_bind H; rename a into ha', Ha into Hha'.
  inv_bind H; rename a into pm0, Ha into Hpm0.
  inv_bind H; rename a into pm', Ha into Hpm'.
  inv_bind H; rename a into dg, Ha into Hdg.
  injection H as <-.
  rewrite Hha0 in Hha'; injection Hha' as <-.
  rewrite Hpm0 in Hpm'; injection Hpm' as <-.
  set (df3 := Pd.set_col df2 "heart_axis"
                (Pd.fillna (Str "Missing") (map snd ha))) in *.
  set (df4 := Pd.set_col df3 "pacemaker"
                (Pd.fillna (Str "Missing") (map snd pm))) in *.
  set (axis_vals :=
         Pd.map_dict
           (map (fun ik : Z * value => (snd ik, Num (inject_Z (fst ik))))
                (enumerate_from 0 (Pd.unique (map snd ha0))))
           (map snd ha0)) in *.
  set (df5 := Pd.set_col df4 "heart_axis" axis_vals) in *.
  set (pace_vals :=
         Pd.map_dict
           (map (fun k => (k, Num (if has_ja k then 1 else 0)))
                (Pd.unique (map snd pm0)))
           (map snd pm0)) in *.
  set (df6 := Pd.set_col df5 "pacemaker" pace_vals) in *.
  assert (List.length (rows df5) = List.length (rows df4)) as L5.
  { apply set_col_length; unfold axis_vals, Pd.map_dict.
    rewrite length_map; now apply col_length with (c := "heart_axis"). }
  assert (List.length (rows df6) = List.length (rows df5)) as L6.
  { apply set_col_length; unfold pace_vals, Pd.map_dict.
    rewrite length_map; now apply col_length with (c := "pacemaker"). }
  match goal with
  | |- context [Pd.set_col df6 "diagnosi" ?v] => set (diag_vals := v) in *
  end.
  assert (List.length (rows (Pd.set_col df6 "diagnosi" diag_vals))
          = List.length (rows df6)) as L7.
  { apply set_col_length; unfold diag_vals.
    rewrite length_map; now apply col_length with (c := "diagnosi"). }
  rewrite L7, L6, L5.
  split; [|split].
  - apply set_col_column_other; [discriminate|].
    apply set_col_column_other; [discriminate|].
    apply set_col_column_in; unfold axis_vals.
    apply map_dict_values.
    + intros v Hv; rewrite map_map; cbn [fst].
      change (fun x : Z * value => snd x) with (@snd Z value).
      rewrite enumerate_from_values.
      destruct (unique_from_complete [] _ _ Hv) as [C|C];
        [discriminate C | exact C].
    + rewrite map_map; apply Forall_forall; intros w Hw.
      apply in_map_iff in Hw; destruct Hw as ([i a] & <- & Hin).
      apply enumerate_from_bounds in Hin; cbn [fst snd].
      exists i; split; [reflexivity|].
      pose proof (unique_from_length [] (map snd ha0)) as U.
      unfold Pd.unique in Hin.
      rewrite (col_length _ _ _ Hha0) in U; lia.
  - apply set_col_column_other; [discriminate|].
    apply set_col_column_in; unfold pace_vals.
    apply map_dict_values.
    + intros v Hv; rewrite map_map; cbn [fst]; rewrite map_id.
      destruct (unique_from_complete [] _ _ Hv) as [C|C];
        [discriminate C | exact C].
    + rewrite map_map; apply Forall_forall; intros w Hw.
      apply in_map_iff in Hw; destruct Hw as (k & <- & _); cbn [snd].
      destruct (has_ja k); [right | left]; reflexivity.
  - apply set_col_column_in; unfold diag_vals.
    apply Forall_forall; intros w Hw.
    apply in_map_iff in Hw; destruct Hw as (v & <- & _).
    apply diagnosis_code_map.
Qed.

Lemma format_df_encodes_witness :
  exists out,
    format_df keep_column raw_table = Ok out /\
    column_in (axis_code (List.length (rows out))) "heart_axis" out /\
    column_in pacemaker_flag "pacemaker" out /\
    column_in diagnosis_code "diagnosi" out.
Proof.
  destruct (format_df keep_column raw_table) as [out|e] eqn:E;
    [|vm_compute in E; discriminate E].
  exists out; split; [reflexivity|].
  exact (format_df_encodes keep_column raw_table out E).
Defined.

(** ** The schema and the ages of the table format_df returns *)

Lemma mapM_In {A B} (f : A -> result B) l bs b :
  mapM f l = Ok bs -> In b bs -> exists a, In a l /\ f a = Ok b.
Proof.
  revert bs; induction l as [|a l IH]; simpl; intros bs H Hb.
  - injection H as <-; destruct Hb.
  - apply bind_ok in H; destruct H as (b0 & Hb0 & H).
    apply bind_ok in H; destruct H as (bs0 & Hbs0 & H).
    injection H as <-.
    destruct Hb as [<-|Hb]; [exists a; auto|].
    destruct (IH _ Hbs0 Hb) as (x & Hx & Fx); exists x; auto.
Qed.

Lemma col_mem df c s : Pd.col df c = Ok s -> mem_string c (columns df) = true.
Proof.
  unfold Pd.col; destruct (mem_string c (columns df));
    [reflexivity | discriminate].
Qed.

Lemma set_col_columns df c vals :
  mem_string c (columns df) = true ->
  columns (Pd.set_col df c vals) = columns df.
Proof. intros H; unfold Pd.set_col; cbn [columns]; now rewrite H. Qed.

(* The age stage: the columns stay, and every record has an age. *)
Lemma fill_age_height_weight_ok
    (groupby_fill_mean :
       DataFrame -> list float -> list string -> string
       -> result (list value))
    (df df' : DataFrame) :
  fill_age_height_weight groupby_fill_mean df = Ok df' ->
  columns df' = columns df /\ column_in is_number "age" df'.
Proof.
  unfold fill_age_height_weight, required_columns; cbn [filter].
  destruct (mem_string "age" (columns df)) eqn:Ma; cbn [negb];
    [|discriminate].
  destruct (mem_string "height" (columns df)) eqn:Mh; cbn [negb];
    [|discriminate].
  destruct (mem_string "weight" (columns df)) eqn:Mw; cbn [negb];
    [|discriminate].
  intros H; inv_bind H; rename a into rows', Ha into Hrows.
  inv_bind H; rename a into hs. inv_bind H; rename a into ws.
  injection H as <-.
  split.
  - assert (columns (Pd.set_col {| columns := columns df; rows := rows' |}
                                "height" hs) = columns df) as Ch
      by (rewrite set_col_columns; [reflexivity | exact Mh]).
    rewrite set_col_columns; [exact Ch | rewrite Ch; exact Mw].
  - apply set_col_column_other; [discriminate|].
    apply set_col_column_other; [discriminate|].
    intros ir Hir; cbn [rows] in Hir.
    destruct (mapM_In _ _ _ _ Hrows Hir) as (ir0 & _ & F).
    apply bind_ok in F; destruct F as (r & Hr & F).
    injection F as <-; cbn [snd].
    destruct (fill_age_cases _ _ _ Hr) as [(q & Hq & ->)|(z & Hz & ->)].
    + exists q; unfold Pd.cell; now rewrite Hq.
    + exists (inject_Z z); apply cell_set_same.
Qed.

(* The stages of a successful call of format_df. *)
Lemma format_df_stages
    (groupby_fill_mean :
       DataFrame -> list float -> list string -> string
       -> result (list value))
    (df out : DataFrame) :
  format_df groupby_fill_mean df = Ok out ->
  exists df1 df2 v1 v2 v3 v4 v5,
    Pd.drop_columns df DROP_COLUMNS = Ok df1 /\
    fill_age_height_weight groupby_fill_mean df1 = Ok df2 /\
    mem_string "heart_axis" (columns df2) = true /\
    mem_string "pacemaker" (columns df2) = true /\
    mem_string "diagnosi" (columns df2) = true /\
    out = Pd.set_col
            (Pd.set_col
               (Pd.set_col
                  (Pd.set_col (Pd.set_col df2 "heart_axis" v1)
                              "pacemaker" v2)
                  "heart_axis" v3)
               "pacemaker" v4)
            "diagnosi" v5.
Proof.
  unfold format_df; intros H.
  inv_bind H; rename a into df1, Ha into H1.
  inv_bind H; rename a into df2, Ha into H2.
  inv_bind H; rename a into ha, Ha into Hha.
  inv_bind H; rename a into pm, Ha into Hpm.
  inv_bind H; rename a into ha0, Ha into Hha0.
  inv_bind H; rename a into ha', Ha into Hha'.
  inv_bind H; rename a into pm0, Ha into Hpm0.
  inv_bind H; rename a into pm', Ha into Hpm'.
  inv_bind H; rename a into dg, Ha into Hdg.
  injection H as <-.
  pose proof (col_mem _ _ _ Hha) as Mha.
  pose proof (col_mem _ _ _ Hpm) as Mpm.
  pose proof (col_mem _ _ _ Hdg) as Mdg.
  set (df3 := Pd.set_col df2 "heart_axis"
                (Pd.fillna (Str "Missing") (map snd ha))) in *.
  set (df4 := Pd.set_col df3 "pacemaker"
                (Pd.fillna (Str "Missing") (map snd pm))) in *.
  match type of Hpm0 with
  | Pd.col (Pd.set_col df4 "heart_axis" ?v) _ = _ => set (v3 := v) in *
  end.
  set (df5 := Pd.set_col df4 "heart_axis" v3) in *.
  match type of Hdg with
  | Pd.col (Pd.set_col df5 "pacemaker" ?v) _ = _ => set (v4 := v) in *
  end.
  set (df6 := Pd.set_col df5 "pacemaker" v4) in *.
  assert (columns df3 = columns df2) as C3
    by (apply set_col_columns; exact Mha).
  assert (columns df4 = columns df3) as C4
    by (apply set_col_columns; exact Mpm).
  assert (columns df5 = columns df4) as C5
    by (apply set_col_columns; rewrite C4, C3; exact Mha).
  assert (columns df6 = columns df5) as C6
    by (apply set_col_columns; rewrite C5, C4; exact Mpm).
  rewrite C6, C5, C4, C3 in Mdg; rewrite C3 in Mpm.
  do 7 eexists.
  split; [exact H1|]. split; [exact H2|].
  split; [exact Mha|]. split; [exact Mpm|]. split; [exact Mdg|].
  reflexivity.
Qed.



(** X17.  The table format_df returns has the columns of the input table
    that are not on the drop list, in their order: the drop removes
    exactly the listed columns and no later step adds or removes a
    column. *)
Theorem format_df_columns
    (groupby_fill_mean :
       DataFrame -> list float -> list string -> string
       -> result (list value))
    (df out : DataFrame) :
  format_df groupby_fill_mean df = Ok out ->
  columns out
  = filter (fun c => negb (mem_string c DROP_COLUMNS)) (columns df) /\
  (forall c, In c DROP_COLUMNS -> In c (columns df)) /\
  (forall c, In c DROP_COLUMNS -> ~ In c (columns out)).
Proof.
  intros H.
  destruct (format_df_stages _ _ _ H)
    as (df1 & df2 & v1 & v2 & v3 & v4 & v5 & H1 & H2 & Ma & Mp & Md & ->).
  destruct (fill_age_height_weight_ok _ _ _ H2) as (C2 & _).
  assert (columns (Pd.set_col df2 "heart_axis" v1) = columns df2) as E1
    by (now apply set_col_columns).
  assert (columns (Pd.set_col (Pd.set_col df2 "heart_axis" v1)
                              "pacemaker" v2) = columns df2) as E2
    by (rewrite set_col_columns; [exact E1 | rewrite E1; exact Mp]).
  assert (columns (Pd.set_col
                     (Pd.set_col (Pd.set_col df2 "heart_axis" v1)
                                 "pacemaker" v2)
                     "heart_axis" v3) = columns df2) as E3
    by (rewrite set_col_columns; [exact E2 | rewrite E2; exact Ma]).
  assert (columns (Pd.set_col
                     (Pd.set_col
                        (Pd.set_col (Pd.set_col df2 "heart_axis" v1)
                                    "pacemaker" v2)
                        "heart_axis" v3)
                     "pacemaker" v4) = columns df2) as E4
    by (rewrite set_col_columns; [exact E3 | rewrite E3; exact Mp]).
  rewrite set_col_columns by (rewrite E4; exact Md).
  rewrite E4.
  rewrite C2.
  unfold Pd.drop_columns in H1.
  destruct (filter (fun l => negb (mem_string l (columns df))) DROP_COLUMNS)
    as [|m ms] eqn:F; [|discriminate H1].
  injection H1 as <-; cbn [columns].
  split; [reflexivity|]. split.
  - intros c Hc.
    destruct (mem_string c (columns df)) eqn:M;
      [now apply mem_string_In|].
    assert (In c (filter (fun l => negb (mem_string l (columns df)))
                         DROP_COLUMNS)) as Hin
      by (apply filter_In; split; [exact Hc | now rewrite M]).
    rewrite F in Hin; destruct Hin.
  - intros c Hc Hin; apply filter_In in Hin; destruct Hin as (_ & N).
    apply mem_string_In in Hc.
    change (negb (mem_string c DROP_COLUMNS) = true) in N.
    rewrite Hc in N; discriminate N.
Qed.

Lemma format_df_columns_witness :
  exists out,
    format_df keep_column raw_table = Ok out /\
    columns out
    = filter (fun c => negb (mem_string c DROP_COLUMNS)) (columns raw_table) /\
    (forall c, In c DROP_COLUMNS -> In c (columns raw_table)) /\
    (forall c, In c DROP_COLUMNS -> ~ In c (columns out)).
Proof.
  destruct (format_df keep_column raw_table) as [out|e] eqn:E;
    [|vm_compute in E; discriminate E].
  exists out; split; [reflexivity|].
  exact (format_df_columns keep_column raw_table out E).
Defined.
